(** * toon.js: a shallow embedding of the TOON tabular-block parser

    The development follows src/toon.js function by function:
    [isHeader], [parseHeader], [parseValue], [parseFromString] and
    [parseFromLines].  The JavaScript built-ins the parser calls
    ([String.prototype.split], [trim], [startsWith], regular expressions,
    [Number], [parseInt], property access on plain objects) are modelled
    in the first modules, after ECMA-262.

    Strings are [string]s of 8-bit characters, read as the code units
    U+0000 .. U+00FF. *)

From Stdlib Require Import String Ascii List Bool Arith NArith ZArith Lia.
From Stdlib Require Import Floats.SpecFloat.
Import ListNotations.
Open Scope list_scope.
Open Scope string_scope.
Open Scope nat_scope.

(* ================================================================== *)
(** ** Characters and strings as JavaScript sees them *)

Module JSString.

Definition code (c : ascii) : nat := nat_of_ascii c.

Definition between (lo hi : nat) (c : ascii) : bool :=
  (lo <=? code c) && (code c <=? hi).

(** WhiteSpace and LineTerminator code units below U+0100: TAB, LF, VT,
    FF, CR, SP and NBSP.  [trim] and [Number] strip exactly these. *)
Definition isWhiteSpace (c : ascii) : bool :=
  between 9 13 c || (code c =? 32) || (code c =? 160).

(** LineTerminator code units below U+0100; the regular expression
    atom [.] matches everything else. *)
Definition isLineTerminator (c : ascii) : bool :=
  (code c =? 10) || (code c =? 13).

Definition isDigit (c : ascii) : bool := between 48 57 c.
Definition isUpper (c : ascii) : bool := between 65 90 c.
Definition isLower (c : ascii) : bool := between 97 122 c.
Definition isLetter (c : ascii) : bool := isUpper c || isLower c.

Definition isEmpty (s : string) : bool :=
  match s with EmptyString => true | String _ _ => false end.

(** [Boolean(s)] for a string [s]: only the empty string is falsy. *)
Definition truthy (s : string) : bool := negb (isEmpty s).

Fixpoint trimStart (s : string) : string :=
  match s with
  | EmptyString => EmptyString
  | String c s' => if isWhiteSpace c then trimStart s' else s
  end.

Fixpoint trimEnd (s : string) : string :=
  match s with
  | EmptyString => EmptyString
  | String c s' =>
      let r := trimEnd s' in
      if isWhiteSpace c && isEmpty r then EmptyString else String c r
  end.

(** [s.trim()] *)
Definition trim (s : string) : string := trimEnd (trimStart s).

(** [s.startsWith(p)] *)
Fixpoint startsWith (p s : string) : bool :=
  match p, s with
  | EmptyString, _ => true
  | String a p', String b s' => Ascii.eqb a b && startsWith p' s'
  | String _ _, EmptyString => false
  end.

(** [s.split(sep)] for a one-character separator: the pieces between
    the separators, empty pieces included; never the empty list. *)
Fixpoint split (sep : ascii) (s : string) : list string :=
  match s with
  | EmptyString => [EmptyString]
  | String c s' =>
      if Ascii.eqb c sep then EmptyString :: split sep s'
      else match split sep s' with
           | p :: ps => String c p :: ps
           | [] => [String c EmptyString]
           end
  end.

(** [a.join(sep)] for an array of strings. *)
Fixpoint join (sep : string) (l : list string) : string :=
  match l with
  | [] => EmptyString
  | [s] => s
  | s :: l' => s ++ sep ++ join sep l'
  end.

Fixpoint takeWhile (p : ascii -> bool) (s : string) : string :=
  match s with
  | String c s' => if p c then String c (takeWhile p s') else EmptyString
  | EmptyString => EmptyString
  end.

Fixpoint dropWhile (p : ascii -> bool) (s : string) : string :=
  match s with
  | String c s' => if p c then dropWhile p s' else s
  | EmptyString => EmptyString
  end.

Fixpoint all (p : ascii -> bool) (s : string) : bool :=
  match s with
  | String c s' => p c && all p s'
  | EmptyString => true
  end.

(** The first [n] code units of [s]. *)
Fixpoint take (n : nat) (s : string) : string :=
  match n, s with
  | S n', String c s' => String c (take n' s')
  | _, _ => EmptyString
  end.

Definition LF : ascii := ascii_of_nat 10.
Definition newline : string := String LF EmptyString.

End JSString.

(* ================================================================== *)
(** ** Regular expressions

    The fragment of ECMAScript patterns that toon.js uses: single
    characters and character classes, greedy [*] and [+] over a class,
    concatenation and capturing groups, anchored at both ends ([^...$]
    without flags).  Matching is by backtracking with continuations, the
    longest repetition tried first, as in the language definition. *)

Module Regex.
Import JSString.

Inductive regex : Type :=
| Chr (c : ascii)                 (* a literal character          *)
| Cls (p : ascii -> bool)         (* a character class, or [.]    *)
| Star (p : ascii -> bool)        (* class*                       *)
| Plus (p : ascii -> bool)        (* class+                       *)
| Seq (r1 r2 : regex)             (* r1 r2                        *)
| Group (r : regex).              (* ( r )                        *)

Definition Cont : Type := string -> list string -> option (list string).

(** Greedy repetition of a class: consume while the class matches, and
    give characters back one at a time when the rest fails. *)
Fixpoint star (p : ascii -> bool) (k : Cont) (s : string)
    (caps : list string) : option (list string) :=
  match s with
  | String c s' =>
      if p c then
        match star p k s' caps with
        | Some r => Some r
        | None => k s caps
        end
      else k s caps
  | EmptyString => k s caps
  end.

Definition one (p : ascii -> bool) (k : Cont) (s : string)
    (caps : list string) : option (list string) :=
  match s with
  | String c s' => if p c then k s' caps else None
  | EmptyString => None
  end.

Fixpoint run (r : regex) (k : Cont) (s : string) (caps : list string)
    : option (list string) :=
  match r with
  | Chr c => one (Ascii.eqb c) k s caps
  | Cls p => one p k s caps
  | Star p => star p k s caps
  | Plus p => one p (star p k) s caps
  | Seq r1 r2 => run r1 (run r2 k) s caps
  | Group r' =>
      run r' (fun s' caps' =>
                k s' (caps' ++ [take (String.length s - String.length s') s])%list)
        s caps
  end.

(** The final [$]: succeed only at the end of the input. *)
Definition atEnd : Cont :=
  fun s caps => if isEmpty s then Some caps else None.

(** [s.match(/^r$/)]: the match array, the whole match at index 0 and
    the captured groups after it; [None] for null. *)
Definition matchAnchored (r : regex) (s : string) : option (list string) :=
  match run r atEnd s [] with
  | Some groups => Some (s :: groups)
  | None => None
  end.

(** [/^r$/.test(s)] *)
Definition test (r : regex) (s : string) : bool :=
  match matchAnchored r s with Some _ => true | None => false end.

(** [s.replace(/^r$/, '$1')] : the first group when the pattern matches
    (the match is the whole string), else [s] unchanged. *)
Definition replaceByGroup1 (r : regex) (s : string) : string :=
  match matchAnchored r s with
  | Some m => nth 1 m EmptyString
  | None => s
  end.

(** [\w], [\d], [[A-Za-z_]], [[^}]] and [.] *)
Definition word (c : ascii) : bool :=
  isLetter c || isDigit c || Ascii.eqb c "_".
Definition digit (c : ascii) : bool := isDigit c.
Definition identStart (c : ascii) : bool := isLetter c || Ascii.eqb c "_".
Definition notCloseBrace (c : ascii) : bool := negb (Ascii.eqb c "}").
Definition dot (c : ascii) : bool := negb (isLineTerminator c).

(** [refuses p k]: the continuation fails on every input that starts
    with a character of the class. *)
Definition refuses (p : ascii -> bool) (k : Cont) : Prop :=
  forall c s caps, p c = true -> k (String c s) caps = None.

Fixpoint seqs (rs : list regex) (last : regex) : regex :=
  match rs with
  | [] => last
  | r :: rs' => Seq r (seqs rs' last)
  end.

End Regex.

(* ================================================================== *)
(** ** Numbers

    A number is an IEEE-754 binary64 value, in the representation of
    the standard library's specification of floating-point arithmetic.
    [Number(s)] is StringToNumber of ECMA-262 (7.1.4.1.1): the literal
    grammar is modelled in full, and the decimal that a literal denotes
    is rounded to the nearest double, ties to even, with overflow to an
    infinity and underflow to the subnormals and the zeros. *)

Module JSNumber.
Import JSString.

Definition number : Type := spec_float.

Definition NaN : number := S754_nan.

Definition Infinity (negative : bool) : number := S754_infinity negative.

(** The number value of the decimal sign * mantissa * 10^exponent: the
    double nearest to it.  A decimal with a non-negative exponent is an
    integer and is rounded as such; one with a negative exponent is the
    correctly rounded quotient of the mantissa by the power of ten. *)
Definition Dec (negative : bool) (mantissa : N) (exponent : Z) : number :=
  match mantissa with
  | N0 => S754_zero negative
  | Npos m =>
      match exponent with
      | Z0 => binary_round 53 1024 negative m 0
      | Zpos e => binary_round 53 1024 negative (m * Pos.pow 10 e) 0
      | Zneg e =>
          SFdiv 53 1024 (S754_finite negative m 0)
                        (S754_finite false (Pos.pow 10 e) 0)
      end
  end.
Arguments Dec : simpl never.

Definition isNaN (x : number) : bool :=
  match x with S754_nan => true | _ => false end.

(** The sign of a number; NaN has none. *)
Definition isNegative (x : number) : bool :=
  match x with
  | S754_zero s | S754_infinity s | S754_finite s _ _ => s
  | S754_nan => false
  end.

(** A number that carries the sign [s]: a zero, a finite number or an
    infinity of that sign, and not NaN. *)
Definition signed (s : bool) (x : number) : Prop :=
  isNaN x = false /\ isNegative x = s.

(** [x === y] for two numbers: NaN equals nothing, the two zeros are
    equal. *)
Definition strictEquals (x y : number) : bool := SFeqb x y.
Arguments strictEquals : simpl never.

(** The number value of a length. *)
Definition ofNat (n : nat) : number := Dec false (N.of_nat n) 0.
Arguments ofNat : simpl never.

Definition digitValue (c : ascii) : N := N.of_nat (code c - 48).

(** Value of a hexadecimal digit; [None] for any other character. *)
Definition hexValue (c : ascii) : option N :=
  if isDigit c then Some (digitValue c)
  else if between 97 102 c then Some (N.of_nat (code c - 87))
  else if between 65 70 c then Some (N.of_nat (code c - 55))
  else None.

Definition isHexDigit (c : ascii) : bool :=
  match hexValue c with Some _ => true | None => false end.
Definition isOctalDigit (c : ascii) : bool := between 48 55 c.
Definition isBinaryDigit (c : ascii) : bool := between 48 49 c.

(** Value of a digit string in a radix, most significant digit first. *)
Fixpoint radixValue (radix : N) (acc : N) (s : string) : N :=
  match s with
  | EmptyString => acc
  | String c s' =>
      let d := match hexValue c with Some d => d | None => 0%N end in
      radixValue radix (acc * radix + d)%N s'
  end.

Definition decimalValue (s : string) : N := radixValue 10 0 s.

(** NonDecimalIntegerLiteral: [0x], [0o] or [0b] (either case) and at
    least one digit of the radix, nothing else. *)
Definition nonDecimalLiteral (s : string) : option N :=
  match s with
  | String "0" (String x ds) =>
      let lit (radix : N) (ok : ascii -> bool) :=
        if negb (isEmpty ds) && all ok ds
        then Some (radixValue radix 0 ds) else None in
      if Ascii.eqb x "x" || Ascii.eqb x "X" then lit 16%N isHexDigit
      else if Ascii.eqb x "o" || Ascii.eqb x "O" then lit 8%N isOctalDigit
      else if Ascii.eqb x "b" || Ascii.eqb x "B" then lit 2%N isBinaryDigit
      else None
  | _ => None
  end.

(** ExponentPart, or nothing: [e] or [E], an optional sign and at
    least one digit, up to the end of the literal. *)
Definition exponentPart (s : string) : option Z :=
  match s with
  | EmptyString => Some 0%Z
  | String e s' =>
      if Ascii.eqb e "e" || Ascii.eqb e "E" then
        let '(neg, ds) :=
          match s' with
          | String "+" ds => (false, ds)
          | String "-" ds => (true, ds)
          | _ => (false, s')
          end in
        if negb (isEmpty ds) && all isDigit ds then
          let v := Z.of_N (decimalValue ds) in
          Some (if neg then (- v)%Z else v)
        else None
      else None
  end.

(** StrUnsignedDecimalLiteral, [Infinity] apart:
    digits [.] digits? exp? | [.] digits exp? | digits exp? *)
Definition unsignedDecimal (s : string) : option (N * Z) :=
  let ip := takeWhile isDigit s in
  let r := dropWhile isDigit s in
  let '(fp, r') :=
    match r with
    | String "." r1 => (takeWhile isDigit r1, dropWhile isDigit r1)
    | _ => (EmptyString, r)
    end in
  if isEmpty ip && isEmpty fp then None
  else match exponentPart r' with
       | Some e =>
           Some (decimalValue (ip ++ fp),
                 (e - Z.of_nat (String.length fp))%Z)
       | None => None
       end.

(** StrDecimalLiteral: an optional sign before the unsigned literal. *)
Definition strDecimalLiteral (s : string) : number :=
  let '(neg, u) :=
    match s with
    | String "+" u => (false, u)
    | String "-" u => (true, u)
    | _ => (false, s)
    end in
  if String.eqb u "Infinity" then Infinity neg
  else match unsignedDecimal u with
       | Some (m, e) => Dec neg m e
       | None => NaN
       end.

(** [Number(s)] for a string [s]. *)
Definition Number (s : string) : number :=
  let t := trim s in
  if isEmpty t then Dec false 0 0
  else match nonDecimalLiteral t with
       | Some n => Dec false n 0
       | None => strDecimalLiteral t
       end.

(** [parseInt(s, 10)]: leading white space and a sign are skipped, the
    longest run of decimal digits is read and the integer it spells is
    rounded to a double; NaN without a digit. *)
Definition parseInt10 (s : string) : number :=
  let t := trimStart s in
  let '(neg, u) :=
    match t with
    | String "+" u => (false, u)
    | String "-" u => (true, u)
    | _ => (false, t)
    end in
  let ds := takeWhile isDigit u in
  if isEmpty ds then NaN
  else Dec neg (decimalValue ds) 0.

End JSNumber.

(* ================================================================== *)
(** ** Plain objects

    An object created by [{}] holds its own properties in creation order
    and inherits from [Object.prototype]. *)

Module JSObject.
Import JSString.

Section Properties.
Variable V : Type.

Definition props : Type := list (string * V).

Fixpoint getOwn (o : props) (k : string) : option V :=
  match o with
  | [] => None
  | (k', v) :: o' => if String.eqb k' k then Some v else getOwn o' k
  end.

Definition hasOwn (o : props) (k : string) : bool :=
  match getOwn o k with Some _ => true | None => false end.

(** Create the data property [k], or overwrite its value where it
    stands. *)
Fixpoint putOwn (o : props) (k : string) (v : V) : props :=
  match o with
  | [] => [(k, v)]
  | (k', v') :: o' =>
      if String.eqb k' k then (k', v) :: o'
      else (k', v') :: putOwn o' k v
  end.

Definition creationKeys (o : props) : list string := map fst o.
End Properties.

Arguments getOwn {V} o k.
Arguments hasOwn {V} o k.
Arguments putOwn {V} o k v.
Arguments creationKeys {V} o.

(** An array index is the canonical decimal form of an integer from 0
    to 2^32 - 2. *)
Definition isArrayIndex (k : string) : bool :=
  match k with
  | EmptyString => false
  | String c rest =>
      all isDigit k
      && (negb (Ascii.eqb c "0") || isEmpty rest)
      && (JSNumber.decimalValue k <=? 4294967294)%N
  end.

Fixpoint insertIndex (k : string) (sorted : list string) : list string :=
  match sorted with
  | [] => [k]
  | k' :: rest =>
      if (JSNumber.decimalValue k <=? JSNumber.decimalValue k')%N
      then k :: sorted
      else k' :: insertIndex k rest
  end.

Definition sortIndices (ks : list string) : list string :=
  fold_right insertIndex [] ks.

(** OrdinaryOwnPropertyKeys, the order of [Object.keys], [for-in] and
    [JSON.stringify]: array indices in ascending numeric order, then
    the other names in order of creation. *)
Definition enumerate (ks : list string) : list string :=
  (sortIndices (filter isArrayIndex ks)
   ++ filter (fun k => negb (isArrayIndex k)) ks)%list.

Definition ownKeys {V : Type} (o : props V) : list string :=
  enumerate (creationKeys o).

(** The property names of [Object.prototype] (Annex B included).  Each
    holds a function, or for [__proto__] yields the prototype object:
    a truthy value that has no [concat] method. *)
Definition objectPrototypeNames : list string :=
  [ "constructor"; "hasOwnProperty"; "isPrototypeOf";
    "propertyIsEnumerable"; "toLocaleString"; "toString"; "valueOf";
    "__proto__"; "__defineGetter__"; "__defineSetter__";
    "__lookupGetter__"; "__lookupSetter__" ].

Definition inherited (k : string) : bool :=
  existsb (String.eqb k) objectPrototypeNames.

(** The result of [o[k]] on an object that inherits from
    [Object.prototype]. *)
Inductive property (V : Type) : Type :=
| Own (v : V)
| Inherited
| Undefined.
Arguments Own {V} v.
Arguments Inherited {V}.
Arguments Undefined {V}.

Definition get {V : Type} (o : props V) (k : string) : property V :=
  match getOwn o k with
  | Some v => Own v
  | None => if inherited k then Inherited else Undefined
  end.

End JSObject.

(* ================================================================== *)
(** ** The parser (src/toon.js) *)

Module Toon.
Import JSString Regex JSNumber JSObject.

(** The double quote character. *)
Definition dquote : ascii := "034"%char.

(** [/^[A-Za-z_][\w]*\[\d+\]\{[^}]+\}:$/] *)
Definition headerSignature : regex :=
  seqs [ Cls identStart; Star word;
         Chr "["; Plus digit; Chr "]";
         Chr "{"; Plus notCloseBrace; Chr "}" ]
       (Chr ":").

(** The pattern of [parseHeader]: the same signature with three groups,
    around the identifier, the digits and the brace content. *)
Definition headerTuple : regex :=
  seqs [ Group (Seq (Cls identStart) (Star word));
         Chr "["; Group (Plus digit); Chr "]";
         Chr "{"; Group (Plus notCloseBrace); Chr "}" ]
       (Chr ":").

(** The pattern of the final [replace]: a double quote, a group around
    [.*] and a double quote, between [^] and [$]. *)
Definition quotedToken : regex :=
  seqs [ Chr dquote; Group (Star dot) ] (Chr dquote).

Definition isHeader (line : string) : bool := test headerSignature line.

Record Header : Type := mkHeader {
  name : string;
  count : number;            (* the result of [parseInt] *)
  fields : list string
}.

Definition parseHeader (line : string) : option Header :=
  match matchAnchored headerTuple line with
  | None => None
  | Some m =>
      Some {| name := nth 1 m EmptyString;
              count := parseInt10 (nth 2 m EmptyString);
              fields := filter truthy
                          (map trim (split "," (nth 3 m EmptyString))) |}
  end.

(** The scalars of a record: number | boolean | null | string. *)
Inductive value : Type :=
| VNum (n : number)
| VBool (b : bool)
| VNull
| VStr (s : string).

Definition parseValue (raw : string) : value :=
  let t := trim raw in
  if String.eqb t "true" then VBool true
  else if String.eqb t "false" then VBool false
  else if String.eqb t "null" then VNull
  else
    let num := Number t in
    if negb (isNaN num) then VNum num
    else VStr (replaceByGroup1 quotedToken t).

(** A record is the object [obj] of the row loop: its own properties and
    whether its prototype has been replaced by null. *)
Record RowObject : Type := mkRow {
  nullPrototype : bool;
  own : props value
}.

Definition emptyObject : RowObject :=
  {| nullPrototype := false; own := [] |}.

(** [obj[k] = v].  An own property is overwritten.  Otherwise the
    assignment reaches the prototype: the [__proto__] accessor of
    [Object.prototype] replaces the prototype when [v] is null and
    ignores every other scalar; any other name, and [__proto__] once the
    prototype is null, becomes a new own property. *)
Definition assign (obj : RowObject) (k : string) (v : value) : RowObject :=
  if hasOwn (own obj) k then
    {| nullPrototype := nullPrototype obj; own := putOwn (own obj) k v |}
  else if String.eqb k "__proto__" && negb (nullPrototype obj) then
    match v with
    | VNull => {| nullPrototype := true; own := own obj |}
    | _ => obj
    end
  else {| nullPrototype := nullPrototype obj; own := putOwn (own obj) k v |}.

(** [lines[i].split(',').map(v => v.trim()).filter(Boolean)] *)
Definition rowTokens (line : string) : list string :=
  filter truthy (map trim (split "," line)).

(** The [for] loop over [j], entered at [j] with the fields from [j] on
    still to do. *)
Fixpoint fieldLoop (todo : list string) (row : list string) (j : nat)
    (obj : RowObject) : RowObject :=
  match todo with
  | [] => obj
  | fieldName :: todo' =>
      let raw := match nth_error row j with
                 | Some r => r
                 | None => EmptyString
                 end in
      fieldLoop todo' row (S j) (assign obj fieldName (parseValue raw))
  end.

(** The body of the row loop for one data line. *)
Definition assembleRow (fields : list string) (line : string) : RowObject :=
  fieldLoop fields (rowTokens line) 0 emptyObject.

(** The result object: block name to rows, in creation order. *)
Definition Document : Type := props (list RowObject).

Inductive exception : Type :=
| TypeError (message : string)
| Error (message : string).

Inductive completion (A : Type) : Type :=
| Return (a : A)
| Throw (e : exception).
Arguments Return {A} a.
Arguments Throw {A} e.

(** One call of [console.warn]: block name, declared and parsed count. *)
Record Diagnostic : Type := mkDiagnostic {
  block : string;
  expected : number;
  parsed : nat
}.

(** What a call leaves behind: how it completes, and the warnings it has
    sent to the console up to then. *)
Definition Outcome : Type := (completion Document * list Diagnostic)%type.

(** The merge step.  [!result[name]] holds exactly when the name is
    neither an own property (an array, always truthy) nor inherited;
    on an inherited value the call of [concat] is a TypeError. *)
Definition merge (result : Document) (name : string)
    (rows : list RowObject) : completion Document :=
  match get result name with
  | Undefined => Return (putOwn result name rows)
  | Own old => Return (putOwn result name (old ++ rows)%list)
  | Inherited => Throw (TypeError "result[name].concat is not a function")
  end.

(** The test [rows.length !== count], with a console present or not. *)
Definition mismatch (console : bool) (h : Header) (rows : list RowObject)
    : list Diagnostic :=
  let same := strictEquals (ofNat (List.length rows)) (count h) in
  if negb same && console
  then [ {| block := name h; expected := count h;
            parsed := List.length rows |} ]
  else [].

(** The inner [while]: rows are consumed up to the next header or the
    end of the lines, then [k] goes on with what was collected and the
    lines that remain. *)
Fixpoint rowLoop (fields : list string)
    (k : list RowObject -> list string -> Outcome)
    (lines : list string) (rows : list RowObject) : Outcome :=
  match lines with
  | [] => k rows lines
  | l :: lines' =>
      if negb (isHeader l)
      then rowLoop fields k lines' (rows ++ [assembleRow fields l])%list
      else k rows lines
  end.

(** The outer [while], on the lines from index [i] on. *)
Fixpoint parseLoop (console : bool) (lines : list string)
    (result : Document) (log : list Diagnostic) {struct lines} : Outcome :=
  match lines with
  | [] => (Return result, log)
  | line :: rest =>
      if negb (isHeader line) then parseLoop console rest result log
      else
        match parseHeader line with
        | None => parseLoop console rest result log
        | Some header =>
            rowLoop (fields header)
              (fun rows rest' =>
                 match merge result (name header) rows with
                 | Throw e => (Throw e, log)
                 | Return result' =>
                     parseLoop console rest' result'
                       (log ++ mismatch console header rows)%list
                 end)
              rest []
        end
  end.

(** The pre-clean step: trimmed lines, without the empty ones and the
    comments. *)
Definition keepLine (l : string) : bool :=
  (0 <? String.length l) && negb (startsWith "#" l)
  && negb (startsWith "//" l).

Definition cleanLines (text : string) : list string :=
  filter keepLine (map trim (split LF text)).

Definition parseFromString (console : bool) (text : string) : Outcome :=
  parseLoop console (cleanLines text) [] [].

(** The argument of [parseFromLines]: an array of strings, or any value
    that is not an array. *)
Inductive argument : Type :=
| AnArray (lines : list string)
| NotAnArray.

Definition parseFromLines (console : bool) (lines : argument) : Outcome :=
  match lines with
  | NotAnArray =>
      (Throw (Error "Toon.parseFromLines expects an array of strings"), [])
  | AnArray l => parseFromString console (join newline l)
  end.

End Toon.

(* ================================================================== *)
(** ** Notions of the specification *)

Module ToonSpec.
Import JSString Regex JSNumber JSObject Toon.

(** *** Comment and blank lines (specification, 4.1) *)

Definition blankLine (l : string) : Prop := trim l = EmptyString.

Definition commentLine (l : string) : Prop :=
  startsWith "#" l = true \/ startsWith "//" l = true.

(** A string that holds no line break, so that it is one line of the
    text it is put into. *)
Definition oneLine (l : string) : Prop :=
  all (fun c => negb (Ascii.eqb c LF)) l = true.

(** [Interspersed ls ls']: the lines [ls'] are the lines [ls] with blank
    lines and comment lines put in at any places. *)
Inductive Interspersed : list string -> list string -> Prop :=
| inter_done : Interspersed [] []
| inter_same l ls ls' :
    Interspersed ls ls' -> Interspersed (l :: ls) (l :: ls')
| inter_extra l ls ls' :
    oneLine l -> blankLine l \/ commentLine l ->
    Interspersed ls ls' -> Interspersed ls (l :: ls').

(** What one raw line (which may itself hold line breaks) contributes to
    the cleaned lines. *)
Definition cleaned (l : string) : list string :=
  filter keepLine (map trim (split LF l)).

(** *** The header pattern in words (specification, 4.2) *)

Definition letterOrUnderscore (c : ascii) : bool :=
  isLetter c || Ascii.eqb c "_".

Definition identifierChar (c : ascii) : bool :=
  isLetter c || isDigit c || Ascii.eqb c "_".

(** A letter or underscore, then letters, digits and underscores. *)
Definition identifier (s : string) : Prop :=
  match s with
  | EmptyString => False
  | String c rest =>
      letterOrUnderscore c = true /\ all identifierChar rest = true
  end.

(** [line] is an identifier [nm], the digits [ds] in brackets, the
    non-empty [body] without closing brace in braces and a colon, and
    nothing else. *)
Definition HeaderShape (line nm ds body : string) : Prop :=
  line = nm ++ "[" ++ ds ++ "]" ++ "{" ++ body ++ "}" ++ ":"
  /\ identifier nm
  /\ ds <> EmptyString /\ all isDigit ds = true
  /\ body <> EmptyString
  /\ all (fun c => negb (Ascii.eqb c "}")) body = true.

(** The header that the specification reads off such a line. *)
Definition headerOf (nm ds body : string) : Header :=
  {| name := nm;
     count := Dec false (decimalValue ds) 0;
     fields := filter truthy (map trim (split "," body)) |}.

(** *** Blocks (specification, 3 and 4.5) *)

(** The lines from the start up to the next header or the end: the data
    lines of a block that starts here. *)
Fixpoint dataLines (lines : list string) : list string :=
  match lines with
  | [] => []
  | l :: ls => if isHeader l then [] else l :: dataLines ls
  end.

(** The lines from the next header on. *)
Fixpoint fromNextHeader (lines : list string) : list string :=
  match lines with
  | [] => []
  | l :: ls => if isHeader l then lines else fromNextHeader ls
  end.

(** The blocks of a cleaned document, in document order: each header
    with the data lines that follow it. *)
Fixpoint blocks (lines : list string) : list (Header * list string) :=
  match lines with
  | [] => []
  | l :: rest =>
      if isHeader l then
        match parseHeader l with
        | Some h => (h, dataLines rest) :: blocks rest
        | None => blocks rest
        end
      else blocks rest
  end.

(** The records of one block: one per data line, in line order. *)
Definition blockRows (b : Header * list string) : list RowObject :=
  map (assembleRow (fields (fst b))) (snd b).

(** The document parser as the specification tells it: the blocks are
    closed one after the other, each merged by name and checked against
    its declared count. *)
Fixpoint runBlocks (console : bool) (bs : list (Header * list string))
    (result : Document) (log : list Diagnostic) : Outcome :=
  match bs with
  | [] => (Return result, log)
  | b :: bs' =>
      match merge result (name (fst b)) (blockRows b) with
      | Throw e => (Throw e, log)
      | Return result' =>
          runBlocks console bs' result'
            (log ++ mismatch console (fst b) (blockRows b))%list
      end
  end.

(** Merging named row lists, with no declared count in sight. *)
Fixpoint mergeBlocks (named : list (string * list RowObject))
    (result : Document) : completion Document :=
  match named with
  | [] => Return result
  | (nm, rows) :: rest =>
      match merge result nm rows with
      | Throw e => Throw e
      | Return result' => mergeBlocks rest result'
      end
  end.

Definition named (b : Header * list string) : string * list RowObject :=
  (name (fst b), blockRows b).

(** Is there a block called [nm]? *)
Definition declared (nm : string) (bs : list (Header * list string)) : bool :=
  existsb (fun b => String.eqb (name (fst b)) nm) bs.

(** The rows of all blocks called [nm], in document order. *)
Definition rowsNamed (nm : string) (bs : list (Header * list string))
    : list RowObject :=
  flat_map (fun b => if String.eqb (name (fst b)) nm then blockRows b else [])
           bs.

(** The number of data lines of all blocks called [nm]. *)
Definition dataLinesNamed (nm : string) (bs : list (Header * list string))
    : nat :=
  list_sum (map (fun b => if String.eqb (name (fst b)) nm
                          then List.length (snd b) else 0) bs).

(** The warnings a document gives rise to when a console is there. *)
Definition warnings (bs : list (Header * list string)) : list Diagnostic :=
  flat_map (fun b => mismatch true (fst b) (blockRows b)) bs.

(** A block without data lines: the header is followed by another
    header or by nothing. *)
Definition noDataLines (rest : list string) : Prop :=
  match rest with
  | [] => True
  | l :: _ => isHeader l = true
  end.

(** *** Records (specification, 3 and 4.4) *)

(** A record with the given own properties and the usual prototype. *)
Definition record (kvs : props value) : RowObject :=
  {| nullPrototype := false; own := kvs |}.

(** [s] between double quotes. *)
Definition quoted (s : string) : string :=
  String dquote (s ++ String dquote EmptyString).

Definition addKey (ks : list string) (k : string) : list string :=
  if existsb (String.eqb k) ks then ks else (ks ++ [k])%list.

(** The names of a field list in the order of their first occurrence. *)
Definition firstOccurrences (fields : list string) : list string :=
  fold_left addKey fields [].

(** *** Further notions for the parser as a whole *)

(** The names of the blocks, in document order. *)
Definition blockNames (bs : list (Header * list string)) : list string :=
  map (fun b => name (fst b)) bs.

(** The number of records that a document holds, over all its keys. *)
Definition totalRecords (doc : Document) : nat :=
  list_sum (map (fun entry => List.length (snd entry)) doc).

(** The data lines of a cleaned document: the lines after the first
    header that are no headers. *)
Definition allDataLines (lines : list string) : list string :=
  filter (fun l => negb (isHeader l)) (fromNextHeader lines).

(** The declared count of a block is the number of its data lines. *)
Definition countMatches (b : Header * list string) : Prop :=
  count (fst b) = ofNat (List.length (snd b)).

(** To go on after a first part of the lines: with its document and
    warnings when it returned, not at all when it threw. *)
Definition andThen (first : Outcome)
    (next : Document -> list Diagnostic -> Outcome) : Outcome :=
  match first with
  | (Return result, log) => next result log
  | (Throw e, log) => (Throw e, log)
  end.

(** The part of a block that is not its declared count. *)
Definition layout (b : Header * list string)
    : string * list string * list string :=
  (name (fst b), fields (fst b), snd b).

(** Two documents whose blocks differ at most in the declared counts. *)
Definition sameButCounts (bs bs' : list (Header * list string)) : Prop :=
  map layout bs = map layout bs'.

(** The tokens at the positions 0 to [n - 1] of a row, the empty token
    where the row has none. *)
Definition paddedTokens (n : nat) (row : list string) : list string :=
  map (fun j => nth j row EmptyString) (seq 0 n).

(** To assign to each field the coercion of the token paired with it,
    one pair after the other. *)
Definition assignAll (pairs : list (string * string)) (obj : RowObject)
    : RowObject :=
  fold_left (fun o ft => assign o (fst ft) (parseValue (snd ft))) pairs obj.

(** The document after an empty row list has been merged under [nm]. *)
Definition registered (result : Document) (nm : string) : Document :=
  match getOwn result nm with
  | Some _ => result
  | None => (result ++ [(nm, [])])%list
  end.


End ToonSpec.

(* ================================================================== *)
(** ** Facts about the string operations *)

Section StringFacts.
Import JSString.

Lemma append_empty_r (s : string) : s ++ EmptyString = s.
Proof. induction s as [|c s IH]; simpl; [reflexivity | now rewrite IH]. Qed.

Lemma append_assoc (a b c : string) : (a ++ b) ++ c = a ++ (b ++ c).
Proof. induction a as [|x a IH]; simpl; [reflexivity | now rewrite IH]. Qed.

Lemma split_not_nil (sep : ascii) (s : string) : split sep s <> [].
Proof.
  destruct s as [|c s]; simpl; [discriminate|].
  destruct (Ascii.eqb c sep); [discriminate|].
  destruct (split sep s); discriminate.
Qed.

(** Splitting distributes over a separator in the middle. *)
Lemma split_append_sep (sep : ascii) (a b : string) :
  split sep (a ++ String sep b) = (split sep a ++ split sep b)%list.
Proof.
  induction a as [|c a IH]; simpl.
  - now rewrite Ascii.eqb_refl.
  - destruct (Ascii.eqb c sep); [now rewrite IH|].
    rewrite IH. destruct (split sep a) as [|p ps] eqn:E; [|reflexivity].
    now destruct (split_not_nil sep a).
Qed.

Lemma split_one_piece (sep : ascii) (s : string) :
  all (fun c => negb (Ascii.eqb c sep)) s = true -> split sep s = [s].
Proof.
  induction s as [|c s IH]; simpl; [reflexivity|].
  intros H. apply andb_true_iff in H as [Hc Hs].
  apply negb_true_iff in Hc. rewrite Hc, (IH Hs). reflexivity.
Qed.

Lemma join_split (sep : ascii) (s : string) :
  join (String sep EmptyString) (split sep s) = s.
Proof.
  induction s as [|c s IH]; simpl; [reflexivity|].
  destruct (Ascii.eqb c sep) eqn:E.
  - apply Ascii.eqb_eq in E. subst c.
    destruct (split sep s) as [|p ps] eqn:Es;
      [now destruct (split_not_nil sep s)|].
    simpl in *. now rewrite IH.
  - destruct (split sep s) as [|p ps] eqn:Es;
      [now destruct (split_not_nil sep s)|].
    destruct ps as [|p' ps]; simpl in *; now rewrite <- IH.
Qed.

Lemma split_join (sep : ascii) (ls : list string) :
  ls <> [] ->
  split sep (join (String sep EmptyString) ls) = flat_map (split sep) ls.
Proof.
  induction ls as [|l ls IH]; [congruence|]. intros _.
  destruct ls as [|l' ls].
  - simpl. now rewrite app_nil_r.
  - change (join (String sep EmptyString) (l :: l' :: ls))
      with (l ++ String sep (join (String sep EmptyString) (l' :: ls))).
    rewrite split_append_sep, IH by discriminate. reflexivity.
Qed.

(** A comment marker at the start of a line survives trimming. *)
Lemma trim_keeps_hash (l : string) :
  startsWith "#" l = true -> startsWith "#" (trim l) = true.
Proof.
  destruct l as [|c l]; cbn [startsWith]; [discriminate|].
  rewrite andb_true_r. intros H. apply Ascii.eqb_eq in H. subst c.
  reflexivity.
Qed.

Lemma trim_keeps_slashes (l : string) :
  startsWith "//" l = true -> startsWith "//" (trim l) = true.
Proof.
  destruct l as [|c [|d l]]; cbn [startsWith]; try discriminate.
  - rewrite andb_false_r. discriminate.
  - rewrite andb_true_r. intros H. apply andb_true_iff in H as [H1 H2].
    apply Ascii.eqb_eq in H1, H2. subst c d. reflexivity.
Qed.

End StringFacts.

(* ================================================================== *)
(** ** The pre-clean step *)

Section CleanLines.
Import JSString Toon ToonSpec.

Lemma cleanLines_join (ls : list string) :
  ls <> [] -> cleanLines (join newline ls) = flat_map cleaned ls.
Proof.
  intros Hne. unfold cleanLines, newline. rewrite split_join by assumption.
  clear Hne. induction ls as [|l ls IH]; [reflexivity|].
  simpl. rewrite map_app, filter_app, IH. reflexivity.
Qed.

Lemma cleaned_blank_or_comment (l : string) :
  oneLine l -> blankLine l \/ commentLine l -> cleaned l = [].
Proof.
  intros Hone Hdrop. unfold cleaned.
  rewrite (split_one_piece LF l Hone). simpl.
  assert (keepLine (trim l) = false) as ->; [|reflexivity].
  unfold keepLine. destruct Hdrop as [Hb | [Hc | Hc]].
  - red in Hb. rewrite Hb. reflexivity.
  - rewrite (trim_keeps_hash l Hc), andb_false_r. reflexivity.
  - rewrite (trim_keeps_slashes l Hc), andb_false_r. reflexivity.
Qed.

Lemma interspersed_cleaned (ls ls' : list string) :
  Interspersed ls ls' -> flat_map cleaned ls' = flat_map cleaned ls.
Proof.
  induction 1 as [| l ls ls' _ IH | l ls ls' Hone Hdrop _ IH]; simpl.
  - reflexivity.
  - now rewrite IH.
  - now rewrite (cleaned_blank_or_comment l Hone Hdrop), IH.
Qed.

Lemma interspersed_not_nil (ls ls' : list string) :
  Interspersed ls ls' -> ls <> [] -> ls' <> [].
Proof. induction 1; intros; congruence. Qed.

(** C9. Putting blank lines and lines that start with [#] or [//]
    anywhere between (or around) the lines of a document does not change
    what the parser makes of it: the result, the error and the warnings
    are those of the original text. *)
Theorem comments_and_blanks_ignored
    (console : bool) (text : string) (ls' : list string) :
  Interspersed (split LF text) ls' ->
  parseFromString console (join newline ls') = parseFromString console text.
Proof.
  intros H. unfold parseFromString. f_equal.
  pose proof (split_not_nil LF text) as Hne.
  rewrite (cleanLines_join ls') by (eapply interspersed_not_nil; eauto).
  rewrite (interspersed_cleaned _ _ H).
  rewrite <- cleanLines_join by assumption.
  unfold newline. now rewrite join_split.
Qed.

Lemma comments_and_blanks_ignored_witness :
  parseFromString true
    (join newline
       ["# points"; "pts[2]{x,y}:"; ""; "1,2"; "// second"; "3,4"])
  = parseFromString true (join newline ["pts[2]{x,y}:"; "1,2"; "3,4"]).
Proof.
  apply (comments_and_blanks_ignored true
           (join newline ["pts[2]{x,y}:"; "1,2"; "3,4"])
           ["# points"; "pts[2]{x,y}:"; ""; "1,2"; "// second"; "3,4"]).
  change (split LF (join newline ["pts[2]{x,y}:"; "1,2"; "3,4"]))
    with ["pts[2]{x,y}:"; "1,2"; "3,4"].
  apply inter_extra; [reflexivity | right; left; reflexivity |].
  apply inter_same.
  apply inter_extra; [reflexivity | left; reflexivity |].
  apply inter_same.
  apply inter_extra; [reflexivity | right; right; reflexivity |].
  apply inter_same. apply inter_done.
Defined.

End CleanLines.

(* ================================================================== *)
(** ** Facts about the matcher *)

Section RegexFacts.
Import JSString Regex.

Lemma all_append (p : ascii -> bool) (a b : string) :
  all p (a ++ b) = all p a && all p b.
Proof.
  induction a as [|c a IH]; simpl; [reflexivity|].
  now rewrite IH, andb_assoc.
Qed.

Lemma length_append (a b : string) :
  String.length (a ++ b) = String.length a + String.length b.
Proof. induction a as [|c a IH]; simpl; [reflexivity | now rewrite IH]. Qed.

Lemma take_prefix (a b : string) :
  take (String.length (a ++ b) - String.length b) (a ++ b) = a.
Proof.
  rewrite length_append, Nat.add_sub.
  induction a as [|c a IH]; simpl.
  - now destruct b.
  - now rewrite IH.
Qed.

Lemma one_Some (p : ascii -> bool) (k : Cont) s caps r :
  one p k s caps = Some r ->
  exists c s', s = String c s' /\ p c = true /\ k s' caps = Some r.
Proof.
  destruct s as [|c s']; simpl; [discriminate|].
  destruct (p c) eqn:E; [|discriminate]. eauto.
Qed.

Lemma one_hit (p : ascii -> bool) (k : Cont) c s caps :
  p c = true -> one p k (String c s) caps = k s caps.
Proof. intros H. simpl. now rewrite H. Qed.

(** Whatever a repetition matched is made of the class; the rest went
    to the continuation. *)
Lemma star_Some (p : ascii -> bool) (k : Cont) s caps r :
  star p k s caps = Some r ->
  exists pre post,
    s = pre ++ post /\ all p pre = true /\ k post caps = Some r.
Proof.
  induction s as [|c s IH]; simpl.
  - intros H. exists EmptyString, EmptyString. auto.
  - destruct (p c) eqn:Ec.
    + destruct (star p k s caps) as [r'|] eqn:Es.
      * intros [= <-]. destruct (IH eq_refl) as (pre & post & -> & Hp & Hk).
        exists (String c pre), post. simpl. rewrite Ec. auto.
      * intros H. exists EmptyString, (String c s). auto.
    + intros H. exists EmptyString, (String c s). auto.
Qed.

(** A continuation that refuses every string starting in the class
    leaves the repetition no choice. *)
Lemma star_complete (p : ascii -> bool) (k : Cont) pre post caps r :
  refuses p k -> all p pre = true -> k post caps = Some r ->
  star p k (pre ++ post) caps = Some r.
Proof.
  intros Hk Hpre Hpost. induction pre as [|c pre IH]; simpl in *.
  - destruct post as [|c s]; simpl; [assumption|].
    destruct (p c) eqn:Ec; [|assumption].
    rewrite (Hk _ _ _ Ec) in Hpost. discriminate.
  - apply andb_true_iff in Hpre as [Hc Hpre].
    now rewrite Hc, (IH Hpre).
Qed.

Lemma refuses_one (p q : ascii -> bool) (k : Cont) :
  (forall c, p c = true -> q c = false) -> refuses p (one q k).
Proof. intros H c s caps Hc. simpl. now rewrite (H c Hc). Qed.

End RegexFacts.

(* ================================================================== *)
(** ** Header matcher and decomposer *)

Section HeaderFacts.
Import JSString Regex JSNumber Toon ToonSpec.

Lemma word_not_bracket c : word c = true -> Ascii.eqb "[" c = false.
Proof.
  intros H. destruct (Ascii.eqb "[" c) eqn:E; [|reflexivity].
  apply Ascii.eqb_eq in E. subst c. discriminate H.
Qed.

Lemma digit_not_bracket c : digit c = true -> Ascii.eqb "]" c = false.
Proof.
  intros H. destruct (Ascii.eqb "]" c) eqn:E; [|reflexivity].
  apply Ascii.eqb_eq in E. subst c. discriminate H.
Qed.

Lemma inside_not_brace c : notCloseBrace c = true -> Ascii.eqb "}" c = false.
Proof.
  unfold notCloseBrace. intros H. apply negb_true_iff in H.
  now rewrite Ascii.eqb_sym.
Qed.

Lemma one_literal (k : Cont) c s caps :
  one (Ascii.eqb c) k (String c s) caps = k s caps.
Proof. apply one_hit, Ascii.eqb_refl. Qed.

Lemma one_literal_Some (k : Cont) c s caps r :
  one (Ascii.eqb c) k s caps = Some r ->
  exists s', s = String c s' /\ k s' caps = Some r.
Proof.
  intros H. apply one_Some in H as (c' & s' & -> & Hc & Hk).
  apply Ascii.eqb_eq in Hc. subst c'. eauto.
Qed.

Lemma atEnd_Some s caps r : atEnd s caps = Some r -> s = EmptyString /\ r = caps.
Proof. destruct s; simpl; [intros [= <-]; auto | discriminate]. Qed.

(** A line of the header shape passes the pattern of [isHeader]. *)
Lemma signature_complete line nm ds body :
  HeaderShape line nm ds body -> run headerSignature atEnd line [] = Some [].
Proof.
  intros (-> & Hid & Hds & Hdig & Hbody & Hin).
  destruct nm as [|c rest]; [contradiction|]. destruct Hid as [Hc Hrest].
  destruct ds as [|d ds]; [congruence|].
  destruct body as [|b body]; [congruence|].
  cbn [all] in Hdig, Hin.
  apply andb_true_iff in Hdig as [Hd Hdig], Hin as [Hb Hin].
  cbn [headerSignature seqs run]. cbn [append].
  rewrite one_hit by exact Hc.
  apply star_complete;
    [apply refuses_one, word_not_bracket | exact Hrest |].
  rewrite one_literal. rewrite one_hit by exact Hd.
  apply star_complete;
    [apply refuses_one, digit_not_bracket | exact Hdig |].
  cbn [append]. rewrite !one_literal. rewrite one_hit by exact Hb.
  apply star_complete;
    [apply refuses_one, inside_not_brace | exact Hin |].
  cbn [append]. rewrite !one_literal. reflexivity.
Qed.

(** Only lines of the header shape pass it. *)
Lemma signature_sound line r :
  run headerSignature atEnd line [] = Some r ->
  exists nm ds body, HeaderShape line nm ds body.
Proof.
  cbn [headerSignature seqs run]. intros H.
  apply one_Some in H as (c & s1 & -> & Hc & H).
  apply star_Some in H as (rest & s2 & -> & Hrest & H).
  apply one_literal_Some in H as (s3 & -> & H).
  apply one_Some in H as (d & s4 & -> & Hd & H).
  apply star_Some in H as (ds & s5 & -> & Hds & H).
  apply one_literal_Some in H as (s6 & -> & H).
  apply one_literal_Some in H as (s7 & -> & H).
  apply one_Some in H as (b & s8 & -> & Hb & H).
  apply star_Some in H as (body & s9 & -> & Hbody & H).
  apply one_literal_Some in H as (s10 & -> & H).
  apply one_literal_Some in H as (s11 & -> & H).
  apply atEnd_Some in H as [-> _].
  exists (String c rest), (String d ds), (String b body).
  repeat split; try discriminate.
  - exact Hc.
  - exact Hrest.
  - cbn [all]. change (digit d && all digit ds = true).
    now rewrite Hd, Hds.
  - cbn [all]. change (notCloseBrace b && all notCloseBrace body = true).
    now rewrite Hb, Hbody.
Qed.

(** On a line of the header shape the pattern of [parseHeader] captures
    the three parts. *)
Lemma tuple_complete line nm ds body :
  HeaderShape line nm ds body ->
  run headerTuple atEnd line [] = Some [nm; ds; body].
Proof.
  intros (-> & Hid & Hds & Hdig & Hbody & Hin).
  destruct nm as [|c rest]; [contradiction|]. destruct Hid as [Hc Hrest].
  destruct ds as [|d ds]; [congruence|].
  destruct body as [|b body]; [congruence|].
  cbn [all] in Hdig, Hin.
  apply andb_true_iff in Hdig as [Hd Hdig], Hin as [Hb Hin].
  cbn [headerTuple seqs run].
  set (tail1 := "[" ++ String d ds ++ "]" ++ "{" ++ String b body ++ "}" ++ ":").
  change (String c rest ++ tail1) with (String c (rest ++ tail1)).
  rewrite one_hit by exact Hc.
  apply star_complete;
    [intros ? ? ? Hw; cbn beta; apply refuses_one with (p := word);
     [apply word_not_bracket | exact Hw]
    | exact Hrest |].
  change (String c (rest ++ tail1)) with (String c rest ++ tail1).
  rewrite take_prefix. subst tail1. cbn [append app]. rewrite one_literal.
  set (tail2 := "]" ++ "{" ++ String b body ++ "}" ++ ":").
  change (String d (ds ++ String "]" (String "{" (String b (body ++ "}:")))))
    with (String d (ds ++ tail2)).
  rewrite one_hit by exact Hd.
  apply star_complete;
    [intros ? ? ? Hw; cbn beta; apply refuses_one with (p := digit);
     [apply digit_not_bracket | exact Hw]
    | exact Hdig |].
  change (String d (ds ++ tail2)) with (String d ds ++ tail2).
  rewrite take_prefix. subst tail2. cbn [append app]. rewrite !one_literal.
  set (tail3 := "}" ++ ":").
  change (String b (body ++ "}:")) with (String b (body ++ tail3)).
  rewrite one_hit by exact Hb.
  apply star_complete;
    [intros ? ? ? Hw; cbn beta; apply refuses_one with (p := notCloseBrace);
     [apply inside_not_brace | exact Hw]
    | exact Hin |].
  change (String b (body ++ tail3)) with (String b body ++ tail3).
  rewrite take_prefix. subst tail3. cbn [append app]. rewrite !one_literal.
  reflexivity.
Qed.

Lemma takeWhile_all (p : ascii -> bool) (s : string) :
  all p s = true -> takeWhile p s = s.
Proof.
  induction s as [|c s IH]; simpl; [reflexivity|].
  intros H. apply andb_true_iff in H as [Hc Hs]. now rewrite Hc, IH.
Qed.

(** [parseInt] reads a run of digits as the number it spells. *)
Lemma parseInt10_digits (d : ascii) (ds : string) :
  isDigit d = true -> all isDigit ds = true ->
  parseInt10 (String d ds) = Dec false (decimalValue (String d ds)) 0.
Proof.
  intros Hd Hds. unfold parseInt10.
  assert (trimStart (String d ds) = String d ds) as ->.
  { destruct d as [[] [] [] [] [] [] [] []]; try discriminate Hd;
      reflexivity. }
  assert (takeWhile isDigit (String d ds) = String d ds) as Htake.
  { apply takeWhile_all. simpl. now rewrite Hd, Hds. }
  destruct d as [[] [] [] [] [] [] [] []]; try discriminate Hd;
    rewrite Htake; reflexivity.
Qed.

Lemma parseHeader_shape line nm ds body :
  HeaderShape line nm ds body -> parseHeader line = Some (headerOf nm ds body).
Proof.
  intros Hshape. unfold parseHeader, matchAnchored.
  rewrite (tuple_complete _ _ _ _ Hshape). cbn [nth]. unfold headerOf.
  destruct Hshape as (_ & _ & Hne & Hdig & _).
  destruct ds as [|d ds]; [congruence|]. cbn [all] in Hdig.
  apply andb_true_iff in Hdig as [Hd Hdig].
  now rewrite (parseInt10_digits d ds Hd Hdig).
Qed.

Lemma isHeader_shape line :
  isHeader line = true <-> exists nm ds body, HeaderShape line nm ds body.
Proof.
  unfold isHeader, test, matchAnchored. split.
  - destruct (run headerSignature atEnd line []) as [r|] eqn:E;
      [intros _; eapply signature_sound; eauto | discriminate].
  - intros (nm & ds & body & Hshape).
    now rewrite (signature_complete _ _ _ _ Hshape).
Qed.

(** The branch [if (!header)] of the outer loop is never taken. *)
Lemma isHeader_parseHeader line :
  isHeader line = true -> exists h, parseHeader line = Some h.
Proof.
  intros H. apply isHeader_shape in H as (nm & ds & body & Hshape).
  rewrite (parseHeader_shape _ _ _ _ Hshape). eauto.
Qed.

(** C7. A line is classified as a header exactly when it has the header
    shape: an identifier, digits in brackets, a non-empty brace content
    without closing brace, a colon, and nothing else.  On every such
    line the decomposition succeeds, with the identifier as name, the
    digits read in base 10 as declared count (the number value of the
    integer they spell, which is rounded from 2^53 on) and the brace
    content split on commas, trimmed, empty entries discarded; the field
    list may come out empty, as for the brace content [,], and is passed
    on as it is. *)
Theorem header_matcher_decomposer (line : string) :
  (isHeader line = true <->
     exists nm ds body, HeaderShape line nm ds body)
  /\ (forall nm ds body,
        HeaderShape line nm ds body ->
        parseHeader line = Some (headerOf nm ds body))
  /\ (isHeader line = true -> parseHeader line <> None)
  /\ (isHeader "a[1]{,}:" = true
      /\ parseHeader "a[1]{,}:"
         = Some {| name := "a"; count := Dec false 1 0; fields := [] |})
  /\ parseHeader "a[9007199254740993]{x}:"
     = Some {| name := "a"; count := Dec false 9007199254740992 0;
               fields := ["x"] |}.
Proof.
  split; [apply isHeader_shape|]. split; [apply parseHeader_shape|].
  split; [|split].
  - intros H. apply isHeader_parseHeader in H as [h ->]. discriminate.
  - split; reflexivity.
  - vm_compute. reflexivity.
Qed.

Lemma header_matcher_decomposer_witness :
  isHeader "points[3]{x, y,,size}:" = true
  /\ parseHeader "points[3]{x, y,,size}:"
     = Some {| name := "points"; count := Dec false 3 0;
               fields := ["x"; "y"; "size"] |}.
Proof.
  assert (Hshape : HeaderShape "points[3]{x, y,,size}:"
                     "points" "3" "x, y,,size")
    by (repeat split; discriminate).
  split.
  - apply (proj1 (header_matcher_decomposer "points[3]{x, y,,size}:")).
    exists "points", "3", "x, y,,size". exact Hshape.
  - exact (proj1 (proj2 (header_matcher_decomposer "points[3]{x, y,,size}:"))
             "points" "3" "x, y,,size" Hshape).
Defined.

End HeaderFacts.

(* ================================================================== *)
(** ** Plain objects: own properties *)

Section ObjectFacts.
Import JSObject.
Context {V : Type}.

Lemma getOwn_putOwn (o : props V) (k k' : string) (v : V) :
  getOwn (putOwn o k v) k'
  = if String.eqb k k' then Some v else getOwn o k'.
Proof.
  induction o as [|[k0 v0] o IH]; simpl.
  - reflexivity.
  - destruct (String.eqb k0 k) eqn:E; simpl.
    + apply String.eqb_eq in E. subst k0.
      destruct (String.eqb k k'); reflexivity.
    + rewrite IH. destruct (String.eqb k0 k') eqn:E'; [|reflexivity].
      apply String.eqb_eq in E'. subst k0.
      rewrite String.eqb_sym in E. now rewrite E.
Qed.

Lemma putOwn_fresh (o : props V) (k : string) (v : V) :
  getOwn o k = None -> putOwn o k v = (o ++ [(k, v)])%list.
Proof.
  induction o as [|[k0 v0] o IH]; simpl; [reflexivity|].
  destruct (String.eqb k0 k); [discriminate|].
  intros H. now rewrite IH.
Qed.

Lemma putOwn_same (o : props V) (k : string) (v : V) :
  getOwn o k = Some v -> putOwn o k v = o.
Proof.
  induction o as [|[k0 v0] o IH]; simpl; [discriminate|].
  destruct (String.eqb k0 k) eqn:E.
  - now intros [= ->].
  - intros H. now rewrite IH.
Qed.

End ObjectFacts.

(* ================================================================== *)
(** ** The two loops of [parseFromString] *)

Section LoopFacts.
Import JSString JSObject Toon ToonSpec.

Lemma rowLoop_dataLines fields k lines rows :
  rowLoop fields k lines rows
  = k (rows ++ map (assembleRow fields) (dataLines lines))%list
      (fromNextHeader lines).
Proof.
  revert rows. induction lines as [|l ls IH]; intros rows; simpl.
  - now rewrite app_nil_r.
  - destruct (isHeader l); simpl.
    + now rewrite app_nil_r.
    + rewrite IH, <- app_assoc. reflexivity.
Qed.

Lemma fromNextHeader_length lines :
  List.length (fromNextHeader lines) <= List.length lines.
Proof.
  induction lines as [|l ls IH]; simpl; [lia|].
  destruct (isHeader l); simpl; lia.
Qed.

Lemma blocks_fromNextHeader lines :
  blocks (fromNextHeader lines) = blocks lines.
Proof.
  induction lines as [|l ls IH]; simpl; [reflexivity|].
  destruct (isHeader l) eqn:E; simpl; [now rewrite E | exact IH].
Qed.

(** The nested loops do what the block-by-block reading says. *)
Lemma parseLoop_blocks console lines :
  forall result log,
    parseLoop console lines result log
    = runBlocks console (blocks lines) result log.
Proof.
  remember (List.length lines) as n eqn:Hn.
  assert (Hle : List.length lines <= n) by lia. clear Hn.
  revert lines Hle. induction n as [|n IH]; intros lines Hle result log.
  - destruct lines; [reflexivity | simpl in Hle; lia].
  - destruct lines as [|line rest]; [reflexivity|].
    simpl in Hle. simpl.
    destruct (isHeader line); simpl; [|apply IH; lia].
    destruct (parseHeader line) as [h|]; [|apply IH; lia].
    rewrite rowLoop_dataLines. simpl. unfold blockRows. simpl.
    destruct (merge result (name h) _); [|reflexivity].
    rewrite IH, blocks_fromNextHeader; [reflexivity|].
    pose proof (fromNextHeader_length rest). lia.
Qed.

Lemma parseFromString_blocks console text :
  parseFromString console text
  = runBlocks console (blocks (cleanLines text)) [] [].
Proof. apply parseLoop_blocks. Qed.

End LoopFacts.

(* ================================================================== *)
(** ** The document that comes out *)

Section DocumentFacts.
Import JSString JSObject Toon ToonSpec.

Lemma mismatch_console console h rows :
  mismatch console h rows = if console then mismatch true h rows else [].
Proof.
  unfold mismatch. destruct console; [reflexivity|].
  now rewrite andb_false_r.
Qed.

Lemma merge_Return result nm rows result' :
  merge result nm rows = Return result' ->
  result' = putOwn result nm
              (match getOwn result nm with
               | Some old => old ++ rows
               | None => rows
               end)%list
  /\ (getOwn result nm = None -> inherited nm = false).
Proof.
  unfold merge, get. destruct (getOwn result nm) as [old|].
  - intros [= <-]. split; [reflexivity | discriminate].
  - destruct (inherited nm); [discriminate|].
    intros [= <-]. split; reflexivity.
Qed.

Lemma merge_Throw result nm rows e :
  merge result nm rows = Throw e ->
  getOwn result nm = None /\ inherited nm = true.
Proof.
  unfold merge, get. destruct (getOwn result nm) as [old|]; [discriminate|].
  destruct (inherited nm); [auto | discriminate].
Qed.

(** What a name maps to after the blocks [bs] have been merged into
    [result]. *)
Lemma runBlocks_getOwn console bs :
  forall result log doc log',
    runBlocks console bs result log = (Return doc, log') ->
    forall nm,
      getOwn doc nm
      = match getOwn result nm with
        | Some old => Some (old ++ rowsNamed nm bs)%list
        | None => if declared nm bs then Some (rowsNamed nm bs) else None
        end.
Proof.
  induction bs as [|b bs IH]; intros result log doc log' H nm; simpl in H.
  - injection H as <- _. simpl.
    destruct (getOwn result nm); [now rewrite app_nil_r | reflexivity].
  - destruct (merge result (name (fst b)) (blockRows b)) as [result'|e] eqn:Em;
      [|discriminate].
    apply merge_Return in Em as [-> _].
    rewrite (IH _ _ _ _ H nm), getOwn_putOwn. unfold rowsNamed, declared.
    simpl. fold (rowsNamed nm bs). fold (declared nm bs).
    destruct (String.eqb (name (fst b)) nm) eqn:E.
    + apply String.eqb_eq in E. rewrite E.
      destruct (getOwn result nm); simpl; [now rewrite app_assoc | reflexivity].
    + reflexivity.
Qed.

Lemma runBlocks_log console bs :
  forall result log doc log',
    runBlocks console bs result log = (Return doc, log') ->
    log' = (log ++ if console then warnings bs else [])%list.
Proof.
  induction bs as [|b bs IH]; intros result log doc log' H; simpl in H.
  - injection H as _ <-. destruct console; now rewrite app_nil_r.
  - destruct (merge result (name (fst b)) (blockRows b)) as [result'|e];
      [|discriminate].
    rewrite (IH _ _ _ _ H), <- app_assoc, mismatch_console.
    destruct console; reflexivity.
Qed.

Lemma runBlocks_mergeBlocks console bs :
  forall result log,
    fst (runBlocks console bs result log) = mergeBlocks (map named bs) result.
Proof.
  induction bs as [|b bs IH]; intros result log; simpl; [reflexivity|].
  destruct (merge result (name (fst b)) (blockRows b)); [apply IH | reflexivity].
Qed.

(** No block name inherited: the parser returns. *)
Lemma runBlocks_returns console bs :
  (forall b, In b bs -> inherited (name (fst b)) = false) ->
  forall result log,
    exists doc log', runBlocks console bs result log = (Return doc, log').
Proof.
  induction bs as [|b bs IH]; intros Hbs result log; simpl; [eauto|].
  destruct (merge result (name (fst b)) (blockRows b)) as [result'|e] eqn:Em.
  - apply IH. intros b' Hb'. apply Hbs. now right.
  - apply merge_Throw in Em as [_ Hin].
    rewrite Hbs in Hin by now left. discriminate.
Qed.

(** The parser returns: no block name is inherited, as long as the
    names merged before were not. *)
Lemma runBlocks_returned console bs :
  forall result log doc log',
    (forall k, hasOwn result k = true -> inherited k = false) ->
    runBlocks console bs result log = (Return doc, log') ->
    forall b, In b bs -> inherited (name (fst b)) = false.
Proof.
  induction bs as [|b bs IH]; intros result log doc log' Hown H b' Hb';
    [contradiction|].
  simpl in H.
  destruct (merge result (name (fst b)) (blockRows b)) as [result'|e] eqn:Em;
    [|discriminate].
  apply merge_Return in Em as [-> Hnew].
  assert (Hb : inherited (name (fst b)) = false).
  { destruct (getOwn result (name (fst b))) eqn:E; [|now apply Hnew].
    apply Hown. unfold hasOwn. now rewrite E. }
  destruct Hb' as [<- | Hb']; [exact Hb|].
  eapply IH; [|exact H|exact Hb'].
  intros k. unfold hasOwn. rewrite getOwn_putOwn.
  destruct (String.eqb (name (fst b)) k) eqn:E.
  - apply String.eqb_eq in E. now subst k.
  - apply Hown.
Qed.

(** [parseFromString] returns a document exactly when no block is named
    like a property of [Object.prototype]; otherwise it throws. *)
Lemma parseFromString_returns_iff console text :
  (exists doc log, parseFromString console text = (Return doc, log))
  <-> (forall b, In b (blocks (cleanLines text)) ->
                 inherited (name (fst b)) = false).
Proof.
  rewrite parseFromString_blocks. split.
  - intros (doc & log & H). eapply runBlocks_returned; [|exact H].
    discriminate.
  - intros H. now apply runBlocks_returns.
Qed.

End DocumentFacts.

(* ================================================================== *)
(** ** Merging, counting, registering *)

Section ParserTheorems.
Import JSString JSNumber JSObject Toon ToonSpec.

Lemma declared_In nm bs :
  declared nm bs = true <-> exists b, In b bs /\ name (fst b) = nm.
Proof.
  unfold declared. rewrite existsb_exists. split.
  - intros (b & Hb & E). apply String.eqb_eq in E. eauto.
  - intros (b & Hb & E). exists b. split; [exact Hb|].
    now apply String.eqb_eq.
Qed.

Lemma rowsNamed_length nm bs :
  List.length (rowsNamed nm bs) = dataLinesNamed nm bs.
Proof.
  unfold rowsNamed, dataLinesNamed.
  induction bs as [|b bs IH]; simpl; [reflexivity|].
  rewrite length_app, IH. unfold blockRows.
  destruct (String.eqb (name (fst b)) nm); simpl; [|reflexivity].
  now rewrite length_map.
Qed.

Lemma blocks_In lines line :
  In line lines -> isHeader line = true ->
  exists h data, parseHeader line = Some h /\ In (h, data) (blocks lines).
Proof.
  intros Hin Hhead. induction lines as [|l ls IH]; [contradiction|].
  destruct (isHeader_parseHeader line Hhead) as [h Hh].
  destruct Hin as [-> | Hin].
  - exists h, (dataLines ls). split; [exact Hh|].
    simpl. rewrite Hhead, Hh. now left.
  - destruct (IH Hin) as (h' & data & Hh' & Hb).
    exists h', data. split; [exact Hh'|]. simpl.
    destruct (isHeader l); [|exact Hb].
    destruct (parseHeader l); [now right | exact Hb].
Qed.

Lemma noDataLines_spec rest :
  noDataLines rest -> dataLines rest = [] /\ fromNextHeader rest = rest.
Proof.
  destruct rest as [|l ls]; simpl; [auto|]. intros ->. auto.
Qed.

(** C5. In the document that the parser returns, the record list of a
    block name is the concatenation, in document order, of the rows of
    all blocks of that name (and names without a block are no keys): two
    blocks [name[1]{a}:] with the rows [1] and [2] give
    [{ name: [{a:1},{a:2}] }].  The parser returns a document whenever
    no block is named like a property of [Object.prototype]. *)
Theorem merge_law :
  (forall console text doc log,
      parseFromString console text = (Return doc, log) ->
      forall nm,
        getOwn doc nm
        = if declared nm (blocks (cleanLines text))
          then Some (rowsNamed nm (blocks (cleanLines text)))
          else None)
  /\ (forall console,
        parseFromString console
          (join newline ["name[1]{a}:"; "1"; "name[1]{a}:"; "2"])
        = (Return
             [("name",
               [ {| nullPrototype := false;
                    own := [("a", VNum (Dec false 1 0))] |};
                 {| nullPrototype := false;
                    own := [("a", VNum (Dec false 2 0))] |} ])],
           []))
  /\ (forall console text,
        (forall b, In b (blocks (cleanLines text)) ->
                   inherited (name (fst b)) = false) ->
        exists doc log, parseFromString console text = (Return doc, log)).
Proof.
  split; [|split].
  - intros console text doc log H nm.
    rewrite parseFromString_blocks in H.
    now rewrite (runBlocks_getOwn _ _ _ _ _ _ H nm).
  - intros []; reflexivity.
  - intros console text H. now apply parseFromString_returns_iff.
Qed.

Lemma merge_law_witness :
  getOwn [ ("a", [ record [("x", VNum (Dec false 1 0))];
                   record [("x", VNum (Dec false 2 0))];
                   record [("x", VNum (Dec false 3 0))] ]);
           ("b", []) ]
         "a"
  = Some (rowsNamed "a"
            (blocks ["a[1]{x}:"; "1"; "b[0]{y}:"; "a[2]{x}:"; "2"; "3"])).
Proof.
  exact (proj1 merge_law true
           (join newline ["a[1]{x}:"; "1"; "b[0]{y}:"; "a[2]{x}:"; "2"; "3"])
           [ ("a", [ record [("x", VNum (Dec false 1 0))];
                     record [("x", VNum (Dec false 2 0))];
                     record [("x", VNum (Dec false 3 0))] ]);
             ("b", []) ]
           [] eq_refl "a").
Defined.

Lemma named_layout (bs bs' : list (Header * list string)) :
  sameButCounts bs bs' -> map named bs = map named bs'.
Proof.
  unfold sameButCounts. intros H.
  assert (Hn : forall l, map named l
                         = map (fun t : string * list string * list string =>
                                  (fst (fst t),
                                   map (assembleRow (snd (fst t))) (snd t)))
                               (map layout l)).
  { intros l. rewrite map_map. apply map_ext. now intros [h data]. }
  now rewrite (Hn bs), (Hn bs'), H.
Qed.

(** What the call gives when no block is named like a property of
    [Object.prototype]: it returns, with the rows of each name and the
    warnings of the blocks. *)
Lemma parseFromString_returns console text :
  (forall b, In b (blocks (cleanLines text)) ->
             inherited (name (fst b)) = false) ->
  exists doc,
    parseFromString console text
    = (Return doc, if console then warnings (blocks (cleanLines text)) else [])
    /\ forall nm,
         getOwn doc nm
         = if declared nm (blocks (cleanLines text))
           then Some (rowsNamed nm (blocks (cleanLines text)))
           else None.
Proof.
  intros Hbs. rewrite parseFromString_blocks.
  destruct (runBlocks_returns console _ Hbs [] []) as (doc & log & H).
  exists doc. split.
  - rewrite H. f_equal. apply (runBlocks_log _ _ _ _ _ _ H).
  - intros nm. apply (runBlocks_getOwn _ _ _ _ _ _ H nm).
Qed.

(** C6. A block yields one record per data line between its header and
    the next header or the end, whatever count the header declares.  A
    text whose blocks have no name of [Object.prototype] is parsed to
    the end with any declared counts: the call returns, each name with
    the rows of its blocks, as many as they have data lines, and a wrong
    count shows only as a warning.  Two texts that differ only in the
    declared counts complete alike, with the same document or the same
    error.  The block [pts[5]{x}:] with two rows returns two records and
    one warning. *)
Theorem declared_count_is_advisory :
  (forall console text,
      let bs := blocks (cleanLines text) in
      (forall b, In b bs -> inherited (name (fst b)) = false) ->
      exists doc,
        parseFromString console text
        = (Return doc, if console then warnings bs else [])
        /\ forall nm,
             declared nm bs = true ->
             exists rows,
               getOwn doc nm = Some rows
               /\ rows = rowsNamed nm bs
               /\ List.length rows = dataLinesNamed nm bs)
  /\ (forall console text text',
        sameButCounts (blocks (cleanLines text)) (blocks (cleanLines text')) ->
        fst (parseFromString console text)
        = fst (parseFromString console text'))
  /\ (forall console,
        parseFromString console (join newline ["pts[5]{x}:"; "1"; "2"])
        = (Return [("pts", [ record [("x", VNum (Dec false 1 0))];
                             record [("x", VNum (Dec false 2 0))] ])],
           if console
           then [ {| block := "pts"; expected := Dec false 5 0;
                     parsed := 2 |} ]
           else [])).
Proof.
  split; [|split].
  - intros console text bs Hbs.
    destruct (parseFromString_returns console text Hbs) as (doc & Hrun & Hget).
    exists doc. split; [exact Hrun|]. intros nm Hnm.
    exists (rowsNamed nm bs). split; [|split].
    + rewrite (Hget nm). fold bs. now rewrite Hnm.
    + reflexivity.
    + apply rowsNamed_length.
  - intros console text text' H.
    rewrite !parseFromString_blocks, !runBlocks_mergeBlocks.
    now rewrite (named_layout _ _ H).
  - intros []; vm_compute; reflexivity.
Qed.

Lemma declared_count_is_advisory_witness :
  (exists doc,
      parseFromString true (join newline ["pts[7]{x}:"; "1"; "q[0]{y}:"; "2"])
      = (Return doc,
         warnings (blocks ["pts[7]{x}:"; "1"; "q[0]{y}:"; "2"]))
      /\ exists rows,
           getOwn doc "q" = Some rows
           /\ rows = rowsNamed "q" (blocks ["pts[7]{x}:"; "1"; "q[0]{y}:"; "2"])
           /\ List.length rows = 1)
  /\ fst (parseFromString true (join newline ["pts[7]{x}:"; "1"]))
     = fst (parseFromString true (join newline ["pts[1]{x}:"; "1"])).
Proof.
  split.
  - destruct (proj1 declared_count_is_advisory true
                (join newline ["pts[7]{x}:"; "1"; "q[0]{y}:"; "2"]))
      as (doc & Hrun & Hrows).
    + intros b [<- | [<- | []]]; reflexivity.
    + exists doc. split; [exact Hrun|]. apply (Hrows "q"). reflexivity.
  - apply (proj1 (proj2 declared_count_is_advisory) true
             (join newline ["pts[7]{x}:"; "1"])
             (join newline ["pts[1]{x}:"; "1"])).
    reflexivity.
Defined.

Lemma registered_merge result nm :
  inherited nm = false -> merge result nm [] = Return (registered result nm).
Proof.
  intros Hnm. unfold merge, get, registered.
  destruct (getOwn result nm) as [old|] eqn:E.
  - now rewrite app_nil_r, (putOwn_same _ _ _ E).
  - now rewrite Hnm, (putOwn_fresh _ _ _ E).
Qed.

(** C10, with the input where it fails.  A block without data lines
    whose name is no property of [Object.prototype] registers its name:
    the loop goes on with the document in which a name that was not
    there maps to the empty list and a name seen before keeps its list.
    When no block has such a name the call returns, and every name that
    the header matcher finds is a key of the document.  The header
    [toString[0]{a}:] is not registered: the call throws. *)
Theorem empty_block_registers_name :
  (forall console line rest result log h,
      isHeader line = true -> parseHeader line = Some h ->
      noDataLines rest -> inherited (name h) = false ->
      parseLoop console (line :: rest) result log
      = parseLoop console rest (registered result (name h))
          (log ++ mismatch console h [])%list)
  /\ (forall console text,
        (forall b, In b (blocks (cleanLines text)) ->
                   inherited (name (fst b)) = false) ->
        exists doc log,
          parseFromString console text = (Return doc, log)
          /\ forall line,
               In line (cleanLines text) -> isHeader line = true ->
               exists h,
                 parseHeader line = Some h /\ hasOwn doc (name h) = true)
  /\ (forall console,
        isHeader "toString[0]{a}:" = true
        /\ parseFromString console "toString[0]{a}:"
           = (Throw (TypeError "result[name].concat is not a function"), [])).
Proof.
  split; [|split].
  - intros console line rest result log h Hhead Hh Hrest Hnm.
    destruct (noDataLines_spec rest Hrest) as [Hdata Hnext].
    simpl. rewrite Hhead, Hh. simpl.
    now rewrite rowLoop_dataLines, Hdata, Hnext, (registered_merge _ _ Hnm).
  - intros console text Hbs.
    destruct (parseFromString_returns console text Hbs) as (doc & Hrun & Hget).
    exists doc, (if console then warnings (blocks (cleanLines text)) else []).
    split; [exact Hrun|]. intros line Hin Hhead.
    destruct (blocks_In _ _ Hin Hhead) as (h & data & Hh & Hb).
    exists h. split; [exact Hh|]. unfold hasOwn. rewrite (Hget (name h)).
    assert (declared (name h) (blocks (cleanLines text)) = true) as ->;
      [|reflexivity].
    apply declared_In. now exists (h, data).
  - intros []; split; reflexivity.
Qed.

Lemma empty_block_registers_name_witness :
  parseLoop true ["a[0]{x}:"; "b[1]{y}:"; "5"] [] []
  = parseLoop true ["b[1]{y}:"; "5"] [("a", [])] []
  /\ parseLoop true ["a[0]{x}:"] [("a", [record [("x", VNum (Dec false 1 0))]])] []
     = (Return [("a", [record [("x", VNum (Dec false 1 0))]])], [])
  /\ exists doc log,
       parseFromString true (join newline ["a[0]{x}:"; "b[1]{y}:"; "5"])
       = (Return doc, log)
       /\ exists h,
            parseHeader "a[0]{x}:" = Some h /\ hasOwn doc (name h) = true.
Proof.
  split; [|split].
  - exact (proj1 empty_block_registers_name true "a[0]{x}:"
             ["b[1]{y}:"; "5"] [] []
             {| name := "a"; count := Dec false 0 0; fields := ["x"] |}
             eq_refl eq_refl eq_refl eq_refl).
  - exact (proj1 empty_block_registers_name true "a[0]{x}:" []
             [("a", [record [("x", VNum (Dec false 1 0))]])] []
             {| name := "a"; count := Dec false 0 0; fields := ["x"] |}
             eq_refl eq_refl I eq_refl).
  - destruct (proj1 (proj2 empty_block_registers_name) true
                (join newline ["a[0]{x}:"; "b[1]{y}:"; "5"]))
      as (doc & log & Hrun & Hkeys).
    + intros b [<- | [<- | []]]; reflexivity.
    + exists doc, log. split; [exact Hrun|].
      apply (Hkeys "a[0]{x}:"); [left|]; reflexivity.
Defined.

(** C8, at the input where it fails.  [parseFromLines] throws its own
    error on a value that is not an array and hands the joined lines of
    an array on to [parseFromString]; but a block that is named like a
    property of [Object.prototype] makes both entry points throw a
    TypeError, array or not: on an array the call returns exactly when
    no block has such a name. *)
Theorem inherited_block_name_throws :
  (forall console,
      parseFromLines console NotAnArray
      = (Throw (Error "Toon.parseFromLines expects an array of strings"), []))
  /\ (forall console ls,
        parseFromLines console (AnArray ls)
        = parseFromString console (join newline ls))
  /\ (forall console,
        parseFromLines console (AnArray ["toString[0]{a}:"])
        = (Throw (TypeError "result[name].concat is not a function"), []))
  /\ (forall console,
        parseFromString console "toString[0]{a}:"
        = (Throw (TypeError "result[name].concat is not a function"), []))
  /\ (forall console ls,
        (exists doc log,
            parseFromLines console (AnArray ls) = (Return doc, log))
        <-> (forall b, In b (blocks (cleanLines (join newline ls))) ->
                       inherited (name (fst b)) = false)).
Proof.
  split; [|split; [|split; [|split]]]; try (intros []; reflexivity).
  intros console ls. apply parseFromString_returns_iff.
Qed.

End ParserTheorems.

(* ================================================================== *)
(** ** Rows and records *)

Section RowFacts.
Import JSString JSNumber JSObject Toon ToonSpec.

Lemma creationKeys_putOwn (o : props value) k v :
  creationKeys (putOwn o k v) = addKey (creationKeys o) k.
Proof.
  unfold addKey. induction o as [|[k0 v0] o IH]; simpl; [reflexivity|].
  rewrite (String.eqb_sym k k0).
  destruct (String.eqb k0 k); simpl; [reflexivity|].
  rewrite IH. now destruct (existsb (String.eqb k) (creationKeys o)).
Qed.

(** Apart from [__proto__], assignment creates or overwrites an own
    property. *)
Lemma assign_plain obj k v :
  k <> "__proto__" ->
  assign obj k v
  = {| nullPrototype := nullPrototype obj; own := putOwn (own obj) k v |}.
Proof.
  intros Hk. unfold assign. destruct (hasOwn (own obj) k); [reflexivity|].
  apply String.eqb_neq in Hk. now rewrite Hk.
Qed.

Lemma token_at (row : list string) (j : nat) :
  match nth_error row j with Some r => r | None => EmptyString end
  = nth j row EmptyString.
Proof.
  revert j. induction row as [|r row IH]; intros [|j]; simpl; auto.
Qed.

Lemma fieldLoop_app a b row j obj :
  fieldLoop (a ++ b) row j obj
  = fieldLoop b row (j + List.length a) (fieldLoop a row j obj).
Proof.
  revert j obj. induction a as [|f a IH]; intros j obj; simpl.
  - now rewrite Nat.add_0_r.
  - rewrite IH. f_equal. lia.
Qed.

Lemma fieldLoop_keys todo row :
  ~ In "__proto__" todo ->
  forall j obj,
    creationKeys (own (fieldLoop todo row j obj))
    = fold_left addKey todo (creationKeys (own obj)).
Proof.
  induction todo as [|f todo IH]; intros Hp j obj; simpl; [reflexivity|].
  rewrite IH by (intros H; apply Hp; now right).
  rewrite assign_plain by (intros ->; apply Hp; now left).
  simpl. now rewrite creationKeys_putOwn.
Qed.

Lemma fieldLoop_untouched todo row f :
  ~ In "__proto__" todo -> ~ In f todo ->
  forall j obj,
    getOwn (own (fieldLoop todo row j obj)) f = getOwn (own obj) f.
Proof.
  induction todo as [|g todo IH]; intros Hp Hf j obj; simpl; [reflexivity|].
  rewrite IH by (intros H; (apply Hp + apply Hf); now right).
  rewrite assign_plain by (intros ->; apply Hp; now left).
  simpl. rewrite getOwn_putOwn.
  destruct (String.eqb g f) eqn:E; [|reflexivity].
  apply String.eqb_eq in E. destruct Hf. now left.
Qed.

(** The value of a field is coerced from the token at the position of
    its last occurrence in the header. *)
Lemma assembleRow_value fields line pre f post :
  ~ In "__proto__" fields ->
  fields = (pre ++ f :: post)%list -> ~ In f post ->
  getOwn (own (assembleRow fields line)) f
  = Some (parseValue (nth (List.length pre) (rowTokens line) EmptyString)).
Proof.
  intros Hp -> Hpost. unfold assembleRow. rewrite fieldLoop_app. simpl.
  rewrite fieldLoop_untouched.
  - rewrite assign_plain.
    + simpl. rewrite getOwn_putOwn, String.eqb_refl, token_at. reflexivity.
    + intros ->. apply Hp. apply in_or_app. right. now left.
  - intros H. apply Hp. apply in_or_app. right. now right.
  - exact Hpost.
Qed.

Lemma addKey_In ks k x : In x (addKey ks k) <-> In x ks \/ x = k.
Proof.
  unfold addKey. destruct (existsb (String.eqb k) ks) eqn:E.
  - split; [auto|]. intros [H | ->]; [exact H|].
    apply existsb_exists in E as (y & Hy & Ey).
    apply String.eqb_eq in Ey. now subst y.
  - rewrite in_app_iff. simpl. intuition.
Qed.

Lemma fold_addKey_In fields :
  forall acc x,
    In x (fold_left addKey fields acc) <-> In x acc \/ In x fields.
Proof.
  induction fields as [|f fields IH]; intros acc x; simpl; [tauto|].
  rewrite IH, addKey_In. intuition.
Qed.

Lemma firstOccurrences_In fields x :
  In x (firstOccurrences fields) <-> In x fields.
Proof. unfold firstOccurrences. rewrite fold_addKey_In. simpl. tauto. Qed.

Lemma fold_addKey_NoDup fields :
  forall acc, NoDup (acc ++ fields) ->
              fold_left addKey fields acc = (acc ++ fields)%list.
Proof.
  induction fields as [|f fields IH]; intros acc Hnd; simpl.
  - now rewrite app_nil_r.
  - assert (Hf : existsb (String.eqb f) acc = false).
    { destruct (existsb (String.eqb f) acc) eqn:E; [|reflexivity].
      apply existsb_exists in E as (y & Hy & Ey).
      apply String.eqb_eq in Ey. subst y.
      apply NoDup_remove_2 in Hnd. destruct Hnd.
      apply in_or_app. now left. }
    unfold addKey at 2. rewrite Hf, IH; rewrite <- app_assoc; [reflexivity|].
    exact Hnd.
Qed.

Lemma firstOccurrences_NoDup fields :
  NoDup fields -> firstOccurrences fields = fields.
Proof. intros H. now apply (fold_addKey_NoDup fields []). Qed.

Lemma insertIndex_In k ks x : In x (insertIndex k ks) <-> x = k \/ In x ks.
Proof.
  induction ks as [|k' ks IH]; simpl; [intuition|].
  destruct (_ <=? _)%N; simpl; [intuition|]. rewrite IH. intuition.
Qed.

Lemma sortIndices_In ks x : In x (sortIndices ks) <-> In x ks.
Proof.
  unfold sortIndices. induction ks as [|k ks IH]; simpl; [tauto|].
  rewrite insertIndex_In, IH. intuition.
Qed.

Lemma enumerate_In ks x : In x (enumerate ks) <-> In x ks.
Proof.
  unfold enumerate. rewrite in_app_iff, sortIndices_In, !filter_In.
  destruct (isArrayIndex x); simpl; intuition discriminate.
Qed.

(** Without array indices among the names the enumeration is the order
    of creation. *)
Lemma enumerate_plain ks :
  Forall (fun k => isArrayIndex k = false) ks -> enumerate ks = ks.
Proof.
  intros H. unfold enumerate.
  assert (filter isArrayIndex ks = []) as ->.
  { induction H as [|k ks Hk _ IH]; simpl; [reflexivity | now rewrite Hk]. }
  simpl. induction H as [|k ks Hk _ IH]; simpl; [reflexivity|].
  now rewrite Hk, IH.
Qed.

(** An assignment to one name leaves the other own properties alone,
    [__proto__] among the names or not. *)
Lemma assign_other obj k v f :
  k <> f -> getOwn (own (assign obj k v)) f = getOwn (own obj) f.
Proof.
  intros Hk. apply String.eqb_neq in Hk. unfold assign.
  destruct (hasOwn (own obj) k).
  - simpl. now rewrite getOwn_putOwn, Hk.
  - destruct (String.eqb k "__proto__" && negb (nullPrototype obj)).
    + now destruct v.
    + simpl. now rewrite getOwn_putOwn, Hk.
Qed.

Lemma assign_self obj f v :
  f <> "__proto__" -> getOwn (own (assign obj f v)) f = Some v.
Proof.
  intros Hf. rewrite (assign_plain _ _ _ Hf). simpl.
  now rewrite getOwn_putOwn, String.eqb_refl.
Qed.

Lemma fieldLoop_other todo row f :
  ~ In f todo ->
  forall j obj,
    getOwn (own (fieldLoop todo row j obj)) f = getOwn (own obj) f.
Proof.
  induction todo as [|g todo IH]; intros Hf j obj; simpl; [reflexivity|].
  rewrite IH by (intros H; apply Hf; now right).
  apply assign_other. intros ->. apply Hf. now left.
Qed.

(** The value of a field other than [__proto__] is coerced from the
    token at the position of its last occurrence in the header. *)
Lemma assembleRow_field fields line pre f post :
  f <> "__proto__" ->
  fields = (pre ++ f :: post)%list -> ~ In f post ->
  getOwn (own (assembleRow fields line)) f
  = Some (parseValue (nth (List.length pre) (rowTokens line) EmptyString)).
Proof.
  intros Hf -> Hpost. unfold assembleRow. rewrite fieldLoop_app. simpl.
  rewrite (fieldLoop_other _ _ _ Hpost), (assign_self _ _ _ Hf), token_at.
  reflexivity.
Qed.

(** The loop over the fields assigns, field by field, the coercion of
    the token at the field's position. *)
Lemma fieldLoop_assignAll todo row :
  forall j obj,
    fieldLoop todo row j obj
    = assignAll
        (combine todo
           (map (fun i => nth i row EmptyString) (seq j (List.length todo))))
        obj.
Proof.
  induction todo as [|f todo IH]; intros j obj; simpl; [reflexivity|].
  now rewrite IH, token_at.
Qed.

End RowFacts.

(* ================================================================== *)
(** ** Scalar coercion and row assembly *)

Section RowTheorems.
Import JSString JSNumber JSObject Toon ToonSpec.

Lemma filter_truthy_remove (l : list string) :
  filter truthy l = remove string_dec EmptyString l.
Proof.
  induction l as [|s l IH]; simpl; [reflexivity|].
  destruct (string_dec EmptyString s) as [<- | Hne]; simpl; [exact IH|].
  destruct s; [congruence|]. simpl. now rewrite IH.
Qed.

(** C1, as the code has it.  A data line is split on commas, each piece
    is trimmed, and every piece that is empty after trimming is
    discarded, in the middle of the row as well, so that the tokens
    after it move up.  Every field is then assigned the coercion of the
    token at its position, the empty token where the row has none, and
    every field other than [__proto__] holds that value in the record
    (for a repeated name the one of its last position): the row [1,,3]
    under the fields a, b, c gives [1] to a, [3] to b and the empty
    token to c. *)
Theorem row_tokens_skip_empty_pieces (line : string) :
  rowTokens line = remove string_dec EmptyString (map trim (split "," line))
  /\ ~ In EmptyString (rowTokens line)
  /\ (forall fields,
         assembleRow fields line
         = assignAll
             (combine fields
                (paddedTokens (List.length fields) (rowTokens line)))
             emptyObject)
  /\ (forall fields pre f post,
         f <> "__proto__" ->
         fields = (pre ++ f :: post)%list -> ~ In f post ->
         getOwn (own (assembleRow fields line)) f
         = Some (parseValue
                   (nth (List.length pre) (rowTokens line) EmptyString))
         /\ (List.length (rowTokens line) <= List.length pre ->
             getOwn (own (assembleRow fields line)) f
             = Some (parseValue EmptyString)))
  /\ (rowTokens "1,,3" = ["1"; "3"]
      /\ assembleRow ["a"; "b"; "c"] "1,,3"
         = record [ ("a", VNum (Dec false 1 0));
                    ("b", VNum (Dec false 3 0));
                    ("c", VNum (Dec false 0 0)) ]).
Proof.
  split; [apply filter_truthy_remove|]. split; [|split; [|split]].
  - unfold rowTokens. rewrite filter_In. intros [_ H]. discriminate H.
  - intros fields. apply fieldLoop_assignAll.
  - intros fields pre f post Hf Hfields Hpost.
    pose proof (assembleRow_field fields line pre f post Hf Hfields Hpost)
      as H.
    split; [exact H|]. intros Hshort.
    now rewrite H, nth_overflow.
  - split; reflexivity.
Qed.

Lemma row_tokens_skip_empty_pieces_witness :
  getOwn (own (assembleRow ["a"; "__proto__"; "b"; "c"] " 7 , ,x,y")) "b"
  = Some (VStr "y")
  /\ getOwn (own (assembleRow ["a"; "__proto__"; "b"; "c"] " 7 , ,x,y")) "c"
     = Some (parseValue EmptyString).
Proof.
  assert (Hb : "b" <> "__proto__") by discriminate.
  assert (Hc : "c" <> "__proto__") by discriminate.
  assert (Hpost : ~ In "b" ["c"]) by (simpl; intuition discriminate).
  assert (Hnil : ~ In "c" (@nil string)) by (simpl; tauto).
  split.
  - exact (proj1 (proj1 (proj2 (proj2 (proj2
             (row_tokens_skip_empty_pieces " 7 , ,x,y"))))
             ["a"; "__proto__"; "b"; "c"] ["a"; "__proto__"] "b" ["c"]
             Hb eq_refl Hpost)).
  - apply (proj2 (proj1 (proj2 (proj2 (proj2
             (row_tokens_skip_empty_pieces " 7 , ,x,y"))))
             ["a"; "__proto__"; "b"; "c"] ["a"; "__proto__"; "b"] "c" []
             Hc eq_refl Hnil)).
    simpl. lia.
Defined.

(** C1 as stated fails: in the row [1,,3] under the fields a, b, c the
    empty piece is dropped, b receives [3] and c the empty token. *)
Lemma middle_empty_piece_is_dropped :
  split "," "1,,3" = ["1"; ""; "3"]
  /\ rowTokens "1,,3" <> ["1"; ""; "3"]
  /\ getOwn (own (assembleRow ["a"; "b"; "c"] "1,,3")) "b"
     <> Some (parseValue EmptyString)
  /\ getOwn (own (assembleRow ["a"; "b"; "c"] "1,,3")) "c"
     <> Some (parseValue "3").
Proof. repeat split; discriminate. Qed.

(** C2, at the input where it fails: the empty token is coerced to the
    number 0, because [Number] of the empty string is 0 and not NaN. *)
Theorem empty_token_is_zero :
  Number EmptyString = Dec false 0 0
  /\ isNaN (Number EmptyString) = false
  /\ parseValue EmptyString = VNum (Dec false 0 0)
  /\ parseValue EmptyString <> VStr EmptyString
  /\ assembleRow ["a"; "b"; "c"] "1,2"
     = record [ ("a", VNum (Dec false 1 0));
                ("b", VNum (Dec false 2 0));
                ("c", VNum (Dec false 0 0)) ].
Proof. repeat split; discriminate. Qed.

(** C3, as the code has it.  The token made of the word [true] between
    double quotes is coerced to the string [true]: the tests for the
    booleans and null and the numeric parse see the token with its
    quotes and do not apply, then the quotes are stripped.  A boolean
    comes out only for a token that is exactly [true] or [false] once
    trimmed. *)
Theorem quoted_true_is_a_string :
  parseValue (quoted "true") = VStr "true"
  /\ (forall raw b,
         parseValue raw = VBool b
         <-> trim raw = if b then "true" else "false").
Proof.
  split; [reflexivity|]. intros raw b. unfold parseValue.
  destruct (String.eqb (trim raw) "true") eqn:Et.
  { apply String.eqb_eq in Et. rewrite Et.
    destruct b; split; intros H; try reflexivity; discriminate H. }
  destruct (String.eqb (trim raw) "false") eqn:Ef.
  { apply String.eqb_eq in Ef. rewrite Ef.
    destruct b; split; intros H; try reflexivity; discriminate H. }
  apply String.eqb_neq in Et, Ef.
  split.
  - destruct (String.eqb (trim raw) "null"); [discriminate|].
    destruct (negb (isNaN (Number (trim raw)))); discriminate.
  - destruct b; intros H; contradiction.
Qed.

(** C3 as stated fails: the quoted word is not coerced to a boolean. *)
Lemma quoted_true_is_not_boolean :
  String.length (quoted "true") = 6
  /\ parseValue (quoted "true") <> VBool true.
Proof. split; [reflexivity | discriminate]. Qed.

(** C4, as the code has it.  Under a header that does not name a field
    [__proto__], the own keys of the record of a data line are exactly
    the field names of the header.  They are created in the header's
    order, a repeated name at its first place, and are enumerated in
    that order unless a name is an array index: array indices come
    first, in ascending numeric order.  A field whose position has no
    token in the row is coerced from the empty token and is a key like
    the others. *)
Theorem record_has_header_fields (fields : list string) (line : string) :
  ~ In "__proto__" fields ->
  let obj := assembleRow fields line in
  (forall k, In k (ownKeys (own obj)) <-> In k fields)
  /\ creationKeys (own obj) = firstOccurrences fields
  /\ ownKeys (own obj) = enumerate (firstOccurrences fields)
  /\ (Forall (fun k => isArrayIndex k = false) fields ->
      ownKeys (own obj) = firstOccurrences fields)
  /\ (NoDup fields -> Forall (fun k => isArrayIndex k = false) fields ->
      ownKeys (own obj) = fields)
  /\ (forall pre f post,
         fields = (pre ++ f :: post)%list -> ~ In f post ->
         getOwn (own obj) f
         = Some (parseValue
                   (nth (List.length pre) (rowTokens line) EmptyString))
         /\ (List.length (rowTokens line) <= List.length pre ->
             getOwn (own obj) f = Some (parseValue EmptyString))).
Proof.
  intros Hp obj.
  assert (Hkeys : creationKeys (own obj) = firstOccurrences fields).
  { unfold obj, assembleRow. now rewrite fieldLoop_keys. }
  assert (Hplain : Forall (fun k => isArrayIndex k = false) fields ->
                   ownKeys (own obj) = firstOccurrences fields).
  { intros H. unfold ownKeys. rewrite Hkeys. apply enumerate_plain.
    rewrite Forall_forall in *. intros k Hk. apply H.
    now apply firstOccurrences_In. }
  split; [|split; [|split; [|split; [|split]]]].
  - intros k. unfold ownKeys.
    now rewrite enumerate_In, Hkeys, firstOccurrences_In.
  - exact Hkeys.
  - unfold ownKeys. now rewrite Hkeys.
  - exact Hplain.
  - intros Hnd H. now rewrite Hplain, firstOccurrences_NoDup.
  - intros pre f post Hf Hpost.
    pose proof (assembleRow_value fields line pre f post Hp Hf Hpost) as H.
    fold obj in H.
    split; [exact H|]. intros Hshort. now rewrite H, nth_overflow.
Qed.

Lemma record_has_header_fields_witness :
  ownKeys (own (assembleRow ["x"; "y"; "size"] "120,150")) = ["x"; "y"; "size"]
  /\ getOwn (own (assembleRow ["x"; "y"; "size"] "120,150")) "size"
     = Some (parseValue EmptyString).
Proof.
  assert (Hp : ~ In "__proto__" ["x"; "y"; "size"])
    by (simpl; intuition discriminate).
  destruct (record_has_header_fields ["x"; "y"; "size"] "120,150" Hp)
    as (_ & _ & _ & _ & Hord & Hval).
  split.
  - apply Hord.
    + repeat constructor; simpl; intuition discriminate.
    + repeat constructor.
  - apply (proj2 (Hval ["x"; "y"] "size" [] eq_refl (fun H => H))).
    simpl. lia.
Defined.

(** C4 as stated fails: under the fields 2, 1 the keys of the record
    are enumerated as 1, 2. *)
Lemma record_keys_leave_header_order :
  ownKeys (own (assembleRow ["2"; "1"] "x,y")) = ["1"; "2"]
  /\ ownKeys (own (assembleRow ["2"; "1"] "x,y")) <> ["2"; "1"].
Proof. split; [reflexivity | discriminate]. Qed.

End RowTheorems.

(* ================================================================== *)
(** ** More about trimming and cleaning *)

Section TrimFacts.
Import JSString Toon ToonSpec.

Lemma trimEnd_idempotent (s : string) : trimEnd (trimEnd s) = trimEnd s.
Proof.
  induction s as [|c s IH]; simpl; [reflexivity|].
  destruct (isWhiteSpace c && isEmpty (trimEnd s)) eqn:E; [reflexivity|].
  simpl. now rewrite IH, E.
Qed.

Lemma trimStart_head (s : string) :
  match trimStart s with
  | EmptyString => True
  | String c _ => isWhiteSpace c = false
  end.
Proof.
  induction s as [|c s IH]; simpl; [exact I|].
  destruct (isWhiteSpace c) eqn:E; [exact IH | exact E].
Qed.

Lemma trimStart_fixed (s : string) :
  match s with
  | EmptyString => True
  | String c _ => isWhiteSpace c = false
  end ->
  trimStart (trimEnd s) = trimEnd s.
Proof.
  destruct s as [|c s]; simpl; [reflexivity|].
  intros Hc. rewrite Hc. simpl. now rewrite Hc.
Qed.

Lemma trim_idempotent (s : string) : trim (trim s) = trim s.
Proof.
  unfold trim. rewrite trimStart_fixed by apply trimStart_head.
  apply trimEnd_idempotent.
Qed.

Lemma all_trimStart (q : ascii -> bool) (s : string) :
  all q s = true -> all q (trimStart s) = true.
Proof.
  induction s as [|c s IH]; simpl; [reflexivity|].
  intros H. destruct (isWhiteSpace c); [|exact H].
  apply andb_true_iff in H as [_ H]. now apply IH.
Qed.

Lemma all_trimEnd (q : ascii -> bool) (s : string) :
  all q s = true -> all q (trimEnd s) = true.
Proof.
  induction s as [|c s IH]; simpl; [reflexivity|].
  intros H. apply andb_true_iff in H as [Hc H].
  destruct (isWhiteSpace c && isEmpty (trimEnd s)); [reflexivity|].
  simpl. now rewrite Hc, IH.
Qed.

Lemma split_pieces (sep : ascii) (s : string) :
  Forall (fun p => all (fun c => negb (Ascii.eqb c sep)) p = true)
         (split sep s).
Proof.
  induction s as [|c s IH]; simpl; [repeat constructor|].
  destruct (Ascii.eqb c sep) eqn:E; [constructor; [reflexivity | exact IH]|].
  destruct (split sep s) as [|p ps]; [repeat constructor; simpl; now rewrite E|].
  inversion IH as [|? ? Hp Hps]; subst. constructor; [|exact Hps].
  simpl. now rewrite E, Hp.
Qed.

End TrimFacts.

(* ================================================================== *)
(** ** The lines that reach the two loops *)

Section LineTheorems.
Import JSString JSObject Toon ToonSpec.

(** X1. The pre-clean step of [parseFromString] hands on only lines that
    are not empty, carry no white space at either end, hold no line
    break and start neither with [#] nor with [//]. *)
Theorem cleanLines_invariant (text l : string) :
  In l (cleanLines text) ->
  l <> EmptyString /\ trim l = l /\ oneLine l
  /\ startsWith "#" l = false /\ startsWith "//" l = false.
Proof.
  unfold cleanLines. rewrite filter_In, in_map_iff.
  intros [(x & <- & Hx) Hkeep]. unfold keepLine in Hkeep.
  apply andb_true_iff in Hkeep as [Hkeep Hslash].
  apply andb_true_iff in Hkeep as [Hlen Hhash].
  apply negb_true_iff in Hslash, Hhash.
  split; [|split; [|split; [|split]]]; try assumption.
  - intros E. rewrite E in Hlen. discriminate.
  - apply trim_idempotent.
  - unfold oneLine, trim. apply all_trimEnd, all_trimStart.
    pose proof (split_pieces LF text) as H.
    rewrite Forall_forall in H. now apply H.
Qed.

Lemma cleanLines_invariant_witness :
  trim "pts[1]{x}:" = "pts[1]{x}:" /\ startsWith "#" "pts[1]{x}:" = false.
Proof.
  assert (Hin : In "pts[1]{x}:"
                  (cleanLines (join newline ["  pts[1]{x}:  "; "# c"; " 1 "])))
    by (left; reflexivity).
  destruct (cleanLines_invariant _ _ Hin) as (_ & Htrim & _ & Hhash & _).
  split; assumption.
Defined.

Lemma cleanLines_lines (ls : list string) :
  cleanLines (join newline ls) = flat_map cleaned ls.
Proof.
  destruct ls as [|l ls]; [reflexivity|].
  apply cleanLines_join. discriminate.
Qed.

(** X2. [parseFromLines] undoes a split of the text at its line breaks:
    on the lines of a text it does what [parseFromString] does on the
    text.  In general it sees the cleaned pieces of the array elements
    one after the other, so an element that holds line breaks counts as
    several lines, and the empty array is the empty document. *)
Theorem parseFromLines_of_split (console : bool) :
  (forall text,
      parseFromLines console (AnArray (split LF text))
      = parseFromString console text)
  /\ (forall ls,
         parseFromLines console (AnArray ls)
         = parseLoop console (flat_map cleaned ls) [] [])
  /\ parseFromLines console (AnArray []) = (Return [], []).
Proof.
  split; [|split].
  - intros text. simpl. unfold newline. now rewrite join_split.
  - intros ls. simpl. unfold parseFromString. now rewrite cleanLines_lines.
  - reflexivity.
Qed.

Lemma parseLoop_fromNextHeader console lines result log :
  parseLoop console lines result log
  = parseLoop console (fromNextHeader lines) result log.
Proof.
  induction lines as [|l ls IH]; [reflexivity|].
  simpl. destruct (isHeader l) eqn:E; simpl; [now rewrite E | exact IH].
Qed.

Lemma fromNextHeader_stray pre lines :
  Forall (fun l => isHeader l = false) pre ->
  fromNextHeader (pre ++ lines) = fromNextHeader lines.
Proof.
  induction 1 as [|l pre Hl _ IH]; simpl; [reflexivity | now rewrite Hl].
Qed.

(** X3. Lines before the first header contribute nothing: raw lines put
    in front of a document, none of which cleans to a header, leave the
    outcome as it is; a text without any header gives the empty
    document, without warnings. *)
Theorem stray_lines_before_first_header (console : bool) :
  (forall pre ls,
      ls <> [] ->
      Forall (fun l => isHeader l = false) (flat_map cleaned pre) ->
      parseFromString console (join newline (pre ++ ls))
      = parseFromString console (join newline ls))
  /\ (forall text,
         Forall (fun l => isHeader l = false) (cleanLines text) ->
         parseFromString console text = (Return [], [])).
Proof.
  split.
  - intros pre ls _ Hpre. unfold parseFromString.
    rewrite !cleanLines_lines, flat_map_app.
    rewrite parseLoop_fromNextHeader, (fromNextHeader_stray _ _ Hpre).
    now rewrite <- parseLoop_fromNextHeader.
  - intros text H. unfold parseFromString.
    rewrite parseLoop_fromNextHeader.
    rewrite <- (app_nil_r (cleanLines text)).
    now rewrite (fromNextHeader_stray _ [] H).
Qed.

Lemma stray_lines_before_first_header_witness :
  parseFromString true (join newline ["1,2"; "x y"; "pts[1]{x}:"; "7"])
  = parseFromString true (join newline ["pts[1]{x}:"; "7"])
  /\ parseFromString true (join newline ["1,2"; "pts[1]{x}"])
     = (Return [], []).
Proof.
  split.
  - apply (proj1 (stray_lines_before_first_header true)
             ["1,2"; "x y"] ["pts[1]{x}:"; "7"]).
    + discriminate.
    + repeat constructor.
  - apply (proj2 (stray_lines_before_first_header true)).
    repeat constructor.
Defined.

Lemma dataLines_app rest l2 :
  noDataLines l2 -> dataLines (rest ++ l2) = dataLines rest.
Proof.
  intros H2. induction rest as [|l rest IH]; simpl.
  - now destruct (noDataLines_spec l2 H2).
  - destruct (isHeader l); [reflexivity | now rewrite IH].
Qed.

Lemma blocks_app l1 l2 :
  noDataLines l2 -> blocks (l1 ++ l2) = (blocks l1 ++ blocks l2)%list.
Proof.
  intros H2. induction l1 as [|l l1 IH]; simpl; [reflexivity|].
  destruct (isHeader l); [|exact IH].
  destruct (parseHeader l); [|exact IH].
  now rewrite IH, dataLines_app.
Qed.

Lemma runBlocks_app console bs1 bs2 :
  forall result log,
    runBlocks console (bs1 ++ bs2) result log
    = andThen (runBlocks console bs1 result log) (runBlocks console bs2).
Proof.
  induction bs1 as [|b bs1 IH]; intros result log; simpl; [reflexivity|].
  destruct (merge result (name (fst b)) (blockRows b));
    [apply IH | reflexivity].
Qed.

(** X4. Parsing composes along the headers: when the second part of the
    lines is empty or starts with a header, the loop over both parts is
    the loop over the first followed, if that returned, by the loop over
    the second from the document and the warnings reached; if the first
    part throws, the second is not looked at. *)
Theorem parseLoop_composes (console : bool) (l1 l2 : list string)
    (result : Document) (log : list Diagnostic) :
  noDataLines l2 ->
  parseLoop console (l1 ++ l2) result log
  = andThen (parseLoop console l1 result log) (parseLoop console l2).
Proof.
  intros H2. rewrite !parseLoop_blocks, (blocks_app _ _ H2), runBlocks_app.
  destruct (runBlocks console (blocks l1) result log) as [[r|e] log'];
    simpl; [now rewrite parseLoop_blocks | reflexivity].
Qed.

Lemma parseLoop_composes_witness :
  parseLoop true ["a[1]{x}:"; "1"; "b[0]{y}:"; "a[1]{x}:"; "2"] [] []
  = parseLoop true ["b[0]{y}:"; "a[1]{x}:"; "2"]
      [("a", [record [("x", VNum (JSNumber.Dec false 1 0))]])] [].
Proof.
  exact (parseLoop_composes true ["a[1]{x}:"; "1"]
           ["b[0]{y}:"; "a[1]{x}:"; "2"] [] [] eq_refl).
Defined.

End LineTheorems.

(* ================================================================== *)
(** ** Keys, record counts, warnings and the error of a whole parse *)

Section WholeParse.
Import JSString JSNumber JSObject Toon ToonSpec.

Lemma creationKeys_put {V : Type} (o : props V) k v :
  creationKeys (putOwn o k v) = addKey (creationKeys o) k.
Proof.
  unfold addKey. induction o as [|[k0 v0] o IH]; simpl; [reflexivity|].
  rewrite (String.eqb_sym k k0).
  destruct (String.eqb k0 k); simpl; [reflexivity|].
  rewrite IH. now destruct (existsb (String.eqb k) (creationKeys o)).
Qed.

Lemma runBlocks_keys console bs :
  forall result log doc log',
    runBlocks console bs result log = (Return doc, log') ->
    creationKeys doc = fold_left addKey (blockNames bs) (creationKeys result).
Proof.
  induction bs as [|b bs IH]; intros result log doc log' H; simpl in H.
  - now injection H as <- _.
  - destruct (merge result (name (fst b)) (blockRows b)) as [r|e] eqn:Em;
      [|discriminate].
    apply merge_Return in Em as [-> _].
    rewrite (IH _ _ _ _ H), creationKeys_put. reflexivity.
Qed.

Lemma NoDup_snoc (ks : list string) (k : string) :
  ~ In k ks -> NoDup ks -> NoDup (ks ++ [k]).
Proof.
  induction ks as [|x ks IH]; simpl; intros Hk Hnd.
  - repeat constructor. tauto.
  - inversion Hnd as [|? ? Hx Hks]; subst. constructor.
    + rewrite in_app_iff. simpl. intros [H | [H | []]]; [tauto|].
      apply Hk. now left.
    + apply IH; [tauto | exact Hks].
Qed.

Lemma fold_addKey_keeps_NoDup (l : list string) :
  forall acc, NoDup acc -> NoDup (fold_left addKey l acc).
Proof.
  induction l as [|k l IH]; intros acc Hacc; simpl; [exact Hacc|].
  apply IH. unfold addKey.
  destruct (existsb (String.eqb k) acc) eqn:E; [exact Hacc|].
  apply NoDup_snoc; [|exact Hacc]. intros Hin.
  assert (existsb (String.eqb k) acc = true) as E'.
  { apply existsb_exists. exists k. split; [exact Hin|].
    apply String.eqb_refl. }
  congruence.
Qed.

Lemma identifier_no_index (nm : string) :
  identifier nm -> isArrayIndex nm = false.
Proof.
  destruct nm as [|c rest]; [contradiction|]. intros [Hc _].
  unfold isArrayIndex. cbn [all].
  assert (isDigit c = false) as ->; [|reflexivity].
  destruct c as [[] [] [] [] [] [] [] []]; try discriminate Hc; reflexivity.
Qed.

(** Every block comes from a line of the header shape. *)
Lemma blocks_header lines b :
  In b (blocks lines) ->
  exists line nm ds body,
    In line lines /\ HeaderShape line nm ds body
    /\ fst b = headerOf nm ds body.
Proof.
  induction lines as [|l ls IH]; simpl; [contradiction|].
  assert (Hrest : In b (blocks ls) ->
                  exists line nm ds body,
                    (l = line \/ In line ls) /\ HeaderShape line nm ds body
                    /\ fst b = headerOf nm ds body).
  { intros H. destruct (IH H) as (line & nm & ds & body & Hin & Hs & Hb).
    exists line, nm, ds, body. auto. }
  destruct (isHeader l) eqn:Eh; [|exact Hrest].
  destruct (parseHeader l) as [h|] eqn:Ep; [|exact Hrest].
  intros [<- | H]; [|now apply Hrest].
  apply isHeader_shape in Eh as (nm & ds & body & Hs).
  exists l, nm, ds, body. split; [now left|]. split; [exact Hs|].
  rewrite (parseHeader_shape _ _ _ _ Hs) in Ep. now injection Ep as <-.
Qed.

(** X5. The keys of the returned document are the block names, each
    once, in the order in which the names first occur in the text; as a
    block name is an identifier and never an array index, this is also
    the order in which the keys are enumerated. *)
Theorem document_keys_in_order_of_first_block
    (console : bool) (text : string) (doc : Document)
    (log : list Diagnostic) :
  parseFromString console text = (Return doc, log) ->
  ownKeys doc = firstOccurrences (blockNames (blocks (cleanLines text)))
  /\ NoDup (ownKeys doc)
  /\ (forall k, In k (ownKeys doc)
                <-> declared k (blocks (cleanLines text)) = true).
Proof.
  intros H. rewrite parseFromString_blocks in H.
  pose proof (runBlocks_keys _ _ _ _ _ _ H) as Hkeys. simpl in Hkeys.
  fold (firstOccurrences (blockNames (blocks (cleanLines text)))) in Hkeys.
  assert (Hown : ownKeys doc
                 = firstOccurrences (blockNames (blocks (cleanLines text)))).
  { unfold ownKeys. rewrite Hkeys. apply enumerate_plain.
    apply Forall_forall. intros k Hk.
    apply (proj1 (firstOccurrences_In _ _)) in Hk. unfold blockNames in Hk.
    apply in_map_iff in Hk as (b & <- & Hb).
    destruct (blocks_header _ _ Hb) as (line & nm & ds & body & _ & Hs & ->).
    simpl. apply identifier_no_index. apply Hs. }
  split; [exact Hown|]. split.
  - rewrite Hown. apply fold_addKey_keeps_NoDup. constructor.
  - intros k. rewrite Hown, firstOccurrences_In, declared_In.
    unfold blockNames. rewrite in_map_iff. split.
    + intros (b & Hn & Hb). eauto.
    + intros (b & Hb & Hn). eauto.
Qed.

Lemma document_keys_in_order_of_first_block_witness :
  ownKeys [ ("b", [record [("y", VNum (Dec false 1 0))]]);
            ("a", [record [("x", VNum (Dec false 2 0))]]) ]
  = firstOccurrences ["b"; "a"; "b"].
Proof.
  exact (proj1 (document_keys_in_order_of_first_block true
                  (join newline ["b[1]{y}:"; "1"; "a[1]{x}:"; "2"; "b[0]{y}:"])
                  [ ("b", [record [("y", VNum (Dec false 1 0))]]);
                    ("a", [record [("x", VNum (Dec false 2 0))]]) ]
                  [] eq_refl)).
Defined.

Lemma totalRecords_merge result nm rows result' :
  merge result nm rows = Return result' ->
  totalRecords result' = totalRecords result + List.length rows.
Proof.
  intros H. apply merge_Return in H as [-> _]. unfold totalRecords.
  induction result as [|[k0 v0] result IH]; simpl.
  - lia.
  - destruct (String.eqb k0 nm); simpl.
    + rewrite length_app. lia.
    + rewrite IH. lia.
Qed.

Lemma runBlocks_totalRecords console bs :
  forall result log doc log',
    runBlocks console bs result log = (Return doc, log') ->
    totalRecords doc
    = totalRecords result
      + list_sum (map (fun b => List.length (snd b)) bs).
Proof.
  induction bs as [|b bs IH]; intros result log doc log' H; simpl in H.
  - injection H as <- _. simpl. lia.
  - destruct (merge result (name (fst b)) (blockRows b)) as [r|e] eqn:Em;
      [|discriminate].
    rewrite (IH _ _ _ _ H), (totalRecords_merge _ _ _ _ Em).
    unfold blockRows. rewrite length_map. simpl. lia.
Qed.

Lemma dataLines_count rest :
  List.length (filter (fun l => negb (isHeader l)) rest)
  = List.length (dataLines rest)
    + List.length (filter (fun l => negb (isHeader l)) (fromNextHeader rest)).
Proof.
  induction rest as [|l rest IH]; simpl; [reflexivity|].
  destruct (isHeader l) eqn:E; simpl; [now rewrite E | now rewrite IH].
Qed.

Lemma blocks_dataLines lines :
  list_sum (map (fun b => List.length (snd b)) (blocks lines))
  = List.length (allDataLines lines).
Proof.
  unfold allDataLines. induction lines as [|l ls IH]; simpl; [reflexivity|].
  destruct (isHeader l) eqn:E; [|exact IH].
  destruct (isHeader_parseHeader l E) as [h ->].
  simpl. rewrite E, IH. simpl. now rewrite (dataLines_count ls).
Qed.

(** X6. No data line is lost and none counts twice: the records of the
    returned document, over all its keys, are as many as the cleaned
    lines after the first header that are no headers. *)
Theorem records_conserved
    (console : bool) (text : string) (doc : Document)
    (log : list Diagnostic) :
  parseFromString console text = (Return doc, log) ->
  totalRecords doc = List.length (allDataLines (cleanLines text)).
Proof.
  intros H. rewrite parseFromString_blocks in H.
  rewrite (runBlocks_totalRecords _ _ _ _ _ _ H), blocks_dataLines.
  reflexivity.
Qed.

Lemma records_conserved_witness :
  totalRecords [ ("a", [ record [("x", VNum (Dec false 1 0))];
                         record [("x", VNum (Dec false 3 0))] ]);
                 ("b", [ record [("y", VNum (Dec false 2 0))] ]) ]
  = List.length
      (allDataLines ["zz"; "a[1]{x}:"; "1"; "b[1]{y}:"; "2"; "a[1]{x}:"; "3"]).
Proof.
  exact (records_conserved true
           (join newline
              ["zz"; "a[1]{x}:"; "1"; "b[1]{y}:"; "2"; "a[1]{x}:"; "3"])
           [ ("a", [ record [("x", VNum (Dec false 1 0))];
                     record [("x", VNum (Dec false 3 0))] ]);
             ("b", [ record [("y", VNum (Dec false 2 0))] ]) ]
           [] eq_refl).
Defined.

End WholeParse.

(* ================================================================== *)
(** ** Rounding to a double *)

Section RoundingFacts.
Import JSNumber.

Lemma shr_1_nonneg mrs : (0 <= shr_m mrs)%Z -> (0 <= shr_m (shr_1 mrs))%Z.
Proof.
  destruct mrs as [m r s]. destruct m as [|[p|p|]|p]; simpl; lia.
Qed.

Lemma iter_pos_nonneg n :
  forall mrs, (0 <= shr_m mrs)%Z -> (0 <= shr_m (iter_pos shr_1 n mrs))%Z.
Proof.
  induction n as [n IH|n IH|]; intros mrs H; simpl.
  - apply IH, IH, shr_1_nonneg, H.
  - apply IH, IH, H.
  - apply shr_1_nonneg, H.
Qed.

Lemma shr_fexp_nonneg prec emax m e l :
  (0 <= m)%Z -> (0 <= shr_m (fst (shr_fexp prec emax m e l)))%Z.
Proof.
  intros H. unfold shr_fexp, shr.
  assert (Hrec : (0 <= shr_m (shr_record_of_loc m l))%Z)
    by (destruct l as [|[]]; exact H).
  destruct (fexp prec emax (Zdigits2 m + e) - e)%Z; simpl;
    try exact Hrec. now apply iter_pos_nonneg.
Qed.

Lemma round_nearest_even_nonneg m l :
  (0 <= m)%Z -> (0 <= round_nearest_even m l)%Z.
Proof.
  intros H. destruct l as [|[]]; simpl; try lia. destruct (Z.even m); lia.
Qed.

Lemma binary_round_aux_signed prec emax s m e l :
  (0 <= m)%Z -> signed s (binary_round_aux prec emax s m e l).
Proof.
  intros H. unfold binary_round_aux.
  pose proof (shr_fexp_nonneg prec emax m e l H) as H1.
  destruct (shr_fexp prec emax m e l) as [mrs' e']. simpl in H1.
  pose proof (shr_fexp_nonneg prec emax _ e' loc_Exact
                (round_nearest_even_nonneg _ (loc_of_shr_record mrs') H1))
    as H2.
  destruct (shr_fexp prec emax _ e' loc_Exact) as [mrs'' e'']. simpl in H2.
  destruct (shr_m mrs'') as [|p|p]; [split; reflexivity | | lia].
  destruct (e'' <=? emax - prec)%Z; split; reflexivity.
Qed.

Lemma binary_round_signed prec emax s m e :
  signed s (binary_round prec emax s m e).
Proof.
  unfold binary_round. destruct (shl_align _ _ _) as [mz ez].
  apply binary_round_aux_signed. lia.
Qed.

(** The number value of a decimal is never NaN and has the sign of the
    decimal. *)
Lemma Dec_signed s m e : signed s (Dec s m e).
Proof.
  unfold Dec. destruct m as [|m]; [split; reflexivity|].
  destruct e as [|e|e]; try apply binary_round_signed.
  unfold SFdiv, SFdiv_core_binary.
  set (m' := match _ with Z0 => _ | Zpos _ => _ | Zneg _ => _ end).
  assert (Hm' : (0 <= m')%Z).
  { subst m'. destruct (_ - _ - _)%Z; try lia.
    apply Z.shiftl_nonneg. lia. }
  pose proof (Z.div_pos m' (Z.pos (10 ^ e)) Hm' ltac:(lia)) as Hq.
  unfold Z.div in Hq.
  destruct (Z.div_eucl m' (Z.pos (10 ^ e))) as [q r]. simpl in Hq.
  rewrite xorb_false_r. now apply binary_round_aux_signed.
Qed.

(** Strict equality of two numbers of one sign is identity. *)
Lemma strictEquals_signed s x y :
  signed s x -> signed s y -> (strictEquals x y = true <-> x = y).
Proof.
  intros [Hx Sx] [Hy Sy]. unfold strictEquals, SFeqb.
  destruct x as [sx|sx| |sx mx ex], y as [sy|sy| |sy my ey];
    simpl in *; try discriminate;
    assert (E : sx = sy) by congruence; clear Sx Sy Hx Hy; subst sy.
  - split; reflexivity.
  - destruct sx; split; discriminate.
  - destruct sx; split; discriminate.
  - destruct sx; split; discriminate.
  - destruct sx; split; reflexivity.
  - destruct sx; split; discriminate.
  - destruct sx; split; discriminate.
  - destruct sx; split; discriminate.
  - assert (Hcmp : forall c, (Some c = Some Eq <-> c = Eq)
                   /\ (Some (CompOpp c) = Some Eq <-> c = Eq)).
    { intros []; simpl; repeat split; congruence. }
    assert (Hfin : match (ex ?= ey)%Z with
                   | Eq => Pos.compare_cont Eq mx my
                   | Lt => Lt
                   | Gt => Gt
                   end = Eq
                   <-> S754_finite sx mx ex = S754_finite sx my ey).
    { destruct (Z.compare_spec ex ey) as [->|Hlt|Hgt].
      - change (Pos.compare_cont Eq mx my) with (Pos.compare mx my).
        rewrite Pos.compare_eq_iff. split; [now intros -> | now intros [= ->]].
      - split; [discriminate | intros [= _ E]; lia].
      - split; [discriminate | intros [= _ E]; lia]. }
    destruct sx.
    + destruct (ex ?= ey)%Z eqn:Ec; simpl in *.
      * destruct (Pos.compare_cont Eq mx my) eqn:Em; simpl;
          split; try reflexivity; try discriminate; intros H;
          try (apply Hfin in H; discriminate H); now apply Hfin.
      * split; [discriminate | intros H; apply Hfin in H; discriminate H].
      * split; [discriminate | intros H; apply Hfin in H; discriminate H].
    + destruct (ex ?= ey)%Z eqn:Ec; simpl in *.
      * destruct (Pos.compare_cont Eq mx my) eqn:Em; simpl;
          split; try reflexivity; try discriminate; intros H;
          try (apply Hfin in H; discriminate H); now apply Hfin.
      * split; [discriminate | intros H; apply Hfin in H; discriminate H].
      * split; [discriminate | intros H; apply Hfin in H; discriminate H].
Qed.
End RoundingFacts.

(* ================================================================== *)
(** ** Warnings and the error *)

Section WarningsAndError.
Import JSString JSNumber JSObject Toon ToonSpec.

Lemma mismatch_none (b : Header * list string) :
  signed false (count (fst b)) ->
  (mismatch true (fst b) (blockRows b) = [] <-> countMatches b).
Proof.
  intros Hc. unfold mismatch, countMatches, blockRows. rewrite length_map.
  pose proof (strictEquals_signed false
                (ofNat (List.length (snd b))) (count (fst b))
                (Dec_signed _ _ _) Hc) as Heq.
  destruct (strictEquals (ofNat (List.length (snd b))) (count (fst b)));
    simpl; split; intros H; try reflexivity; try discriminate.
  - symmetry. now apply Heq.
  - symmetry in H. apply Heq in H. discriminate.
Qed.

Lemma mismatch_In (b : Header * list string) (d : Diagnostic) :
  signed false (count (fst b)) ->
  In d (mismatch true (fst b) (blockRows b)) ->
  ~ countMatches b
  /\ block d = name (fst b) /\ expected d = count (fst b)
  /\ parsed d = List.length (snd b).
Proof.
  intros Hsigned Hd. split.
  - intros Hc. apply (mismatch_none b Hsigned) in Hc.
    rewrite Hc in Hd. contradiction.
  - unfold mismatch in Hd.
    destruct (negb _ && true); [|contradiction].
    destruct Hd as [<- | []]. simpl. unfold blockRows.
    now rewrite length_map.
Qed.

Lemma warnings_none bs :
  (forall b, In b bs -> signed false (count (fst b))) ->
  (warnings bs = [] <-> forall b, In b bs -> countMatches b).
Proof.
  unfold warnings. induction bs as [|b bs IH]; intros Hs; simpl.
  - split; [contradiction | reflexivity].
  - assert (Hb : signed false (count (fst b))) by (apply Hs; now left).
    assert (Hbs : forall b', In b' bs -> signed false (count (fst b')))
      by (intros b' Hb'; apply Hs; now right).
    split.
    + intros H. apply app_eq_nil in H as [H1 H2].
      intros b' [<- | Hb']; [now apply mismatch_none | now apply IH].
    + intros H. rewrite (proj2 (mismatch_none b Hb)) by (apply H; now left).
      apply IH; [exact Hbs|]. intros b' Hb'. apply H. now right.
Qed.

(** The count of a parsed header is the number value of a natural
    number: not NaN and not negative. *)
Lemma blocks_count_signed lines b :
  In b (blocks lines) -> signed false (count (fst b)).
Proof.
  intros Hb.
  destruct (blocks_header _ _ Hb) as (line & nm & ds & body & _ & _ & ->).
  apply Dec_signed.
Qed.

(** X7. Of a call that returns, the warnings are those of the blocks
    whose declared count is not the number of their data lines, one per
    such block, with the name, the declared and the parsed count: with a
    console the call is silent exactly when every count is right,
    without a console it is always silent. *)
Theorem warnings_name_the_mismatches
    (console : bool) (text : string) (doc : Document)
    (log : list Diagnostic) :
  parseFromString console text = (Return doc, log) ->
  let bs := blocks (cleanLines text) in
  (console = false -> log = [])
  /\ (console = true ->
      (log = [] <-> forall b, In b bs -> countMatches b))
  /\ (forall d, In d log ->
        exists b, In b bs /\ ~ countMatches b
                  /\ block d = name (fst b)
                  /\ expected d = count (fst b)
                  /\ parsed d = List.length (snd b)).
Proof.
  intros H bs. rewrite parseFromString_blocks in H.
  pose proof (runBlocks_log _ _ _ _ _ _ H) as Hlog. simpl in Hlog.
  fold bs in Hlog. split; [|split].
  - intros ->. exact Hlog.
  - intros ->. rewrite Hlog. apply warnings_none.
    intros b Hb. eapply blocks_count_signed; eauto.
  - intros d Hd. rewrite Hlog in Hd. destruct console; [|contradiction].
    unfold warnings in Hd. apply in_flat_map in Hd as (b & Hb & Hd).
    exists b. split; [exact Hb|]. apply mismatch_In; [|exact Hd].
    eapply blocks_count_signed; eauto.
Qed.

Lemma warnings_name_the_mismatches_witness :
  (@nil Diagnostic = []
   <-> forall b, In b (blocks ["pts[2]{x}:"; "1"; "2"; "q[0]{y}:"]) ->
                 countMatches b).
Proof.
  exact (proj1 (proj2 (warnings_name_the_mismatches true
                         (join newline ["pts[2]{x}:"; "1"; "2"; "q[0]{y}:"])
                         [ ("pts", [ record [("x", VNum (Dec false 1 0))];
                                     record [("x", VNum (Dec false 2 0))] ]);
                           ("q", []) ]
                         [] eq_refl))
                eq_refl).
Defined.

Lemma declared_inherited nm bs :
  (forall b, In b bs -> inherited (name (fst b)) = false) ->
  inherited nm = true -> declared nm bs = false.
Proof.
  intros Hbs Hnm. destruct (declared nm bs) eqn:E; [|reflexivity].
  apply declared_In in E as (b & Hb & <-).
  rewrite (Hbs b Hb) in Hnm. discriminate.
Qed.

(** X8. The first block that is named like a property of
    [Object.prototype] ends the call with a TypeError: no document comes
    back, the blocks after it are not looked at, and the console has
    received the warnings of the blocks before it and no others. *)
Theorem first_inherited_name_ends_the_call
    (console : bool) (text : string)
    (before after : list (Header * list string))
    (b : Header * list string) :
  blocks (cleanLines text) = (before ++ b :: after)%list ->
  (forall b', In b' before -> inherited (name (fst b')) = false) ->
  inherited (name (fst b)) = true ->
  parseFromString console text
  = (Throw (TypeError "result[name].concat is not a function"),
     if console then warnings before else []).
Proof.
  intros Hbs Hbefore Hb.
  rewrite parseFromString_blocks, Hbs, runBlocks_app.
  destruct (runBlocks_returns console before Hbefore [] [])
    as (doc & log & Hrun).
  rewrite Hrun. simpl.
  pose proof (runBlocks_log _ _ _ _ _ _ Hrun) as Hlog. simpl in Hlog.
  pose proof (runBlocks_getOwn _ _ _ _ _ _ Hrun (name (fst b))) as Hget.
  simpl in Hget. rewrite (declared_inherited _ _ Hbefore Hb) in Hget.
  unfold merge, get. now rewrite Hget, Hb, Hlog.
Qed.

Lemma first_inherited_name_ends_the_call_witness :
  parseFromString true
    (join newline ["a[2]{x}:"; "1"; "valueOf[0]{y}:"; "b[3]{z}:"])
  = (Throw (TypeError "result[name].concat is not a function"),
     [ {| block := "a"; expected := Dec false 2 0; parsed := 1 |} ]).
Proof.
  apply (first_inherited_name_ends_the_call true
           (join newline ["a[2]{x}:"; "1"; "valueOf[0]{y}:"; "b[3]{z}:"])
           [ ({| name := "a"; count := Dec false 2 0; fields := ["x"] |},
              ["1"]) ]
           [ ({| name := "b"; count := Dec false 3 0; fields := ["z"] |}, []) ]
           ({| name := "valueOf"; count := Dec false 0 0; fields := ["y"] |},
            [])).
  - reflexivity.
  - intros b' [<- | []]. reflexivity.
  - reflexivity.
Defined.

End WarningsAndError.

(* ================================================================== *)
(** ** The header decomposer on its own *)

Section HeaderTheorems.
Import JSString Regex JSNumber Toon ToonSpec.

(** Only lines of the header shape pass the pattern of [parseHeader]. *)
Lemma tuple_sound line r :
  run headerTuple atEnd line [] = Some r ->
  exists nm ds body, HeaderShape line nm ds body.
Proof.
  cbn [headerTuple seqs run]. intros H.
  apply one_Some in H as (c & s1 & -> & Hc & H).
  apply star_Some in H as (rest & s2 & -> & Hrest & H).
  cbn beta in H.
  apply one_literal_Some in H as (s3 & -> & H).
  apply one_Some in H as (d & s4 & -> & Hd & H).
  apply star_Some in H as (ds & s5 & -> & Hds & H).
  cbn beta in H.
  apply one_literal_Some in H as (s6 & -> & H).
  apply one_literal_Some in H as (s7 & -> & H).
  apply one_Some in H as (b & s8 & -> & Hb & H).
  apply star_Some in H as (body & s9 & -> & Hbody & H).
  cbn beta in H.
  apply one_literal_Some in H as (s10 & -> & H).
  apply one_literal_Some in H as (s11 & -> & H).
  apply atEnd_Some in H as [-> _].
  exists (String c rest), (String d ds), (String b body).
  repeat split; try discriminate.
  - exact Hc.
  - exact Hrest.
  - cbn [all]. change (digit d && all digit ds = true).
    now rewrite Hd, Hds.
  - cbn [all]. change (notCloseBrace b && all notCloseBrace body = true).
    now rewrite Hb, Hbody.
Qed.

Lemma parseHeader_Some_shape line h :
  parseHeader line = Some h ->
  exists nm ds body, HeaderShape line nm ds body /\ h = headerOf nm ds body.
Proof.
  intros H.
  assert (exists nm ds body, HeaderShape line nm ds body)
    as (nm & ds & body & Hs).
  { unfold parseHeader, matchAnchored in H.
    destruct (run headerTuple atEnd line []) as [r|] eqn:E; [|discriminate].
    eapply tuple_sound; eauto. }
  exists nm, ds, body. split; [exact Hs|].
  rewrite (parseHeader_shape _ _ _ _ Hs) in H. now injection H.
Qed.

(** X9. [parseHeader] and [isHeader] agree: the decomposer returns null
    exactly on the lines that the matcher refuses.  A header it returns
    has an identifier as name, a count that is the number value of a
    natural number, so not NaN and not negative, and fields that are not
    empty, carry no white space at either end and hold no comma. *)
Theorem parseHeader_agrees_with_isHeader (line : string) :
  (parseHeader line = None <-> isHeader line = false)
  /\ (forall h,
         parseHeader line = Some h ->
         isHeader line = true
         /\ identifier (name h)
         /\ ((exists n : N, count h = Dec false n 0)
             /\ isNaN (count h) = false /\ isNegative (count h) = false)
         /\ (forall f, In f (fields h) ->
               f <> EmptyString /\ trim f = f
               /\ all (fun c => negb (Ascii.eqb c ",")) f = true)).
Proof.
  split.
  - split; intros H.
    + destruct (isHeader line) eqn:E; [|reflexivity].
      destruct (isHeader_parseHeader line E) as [h Hh]. congruence.
    + destruct (parseHeader line) as [h|] eqn:E; [|reflexivity].
      destruct (parseHeader_Some_shape _ _ E) as (nm & ds & body & Hs & _).
      rewrite (proj2 (isHeader_shape line)) in H by eauto. discriminate.
  - intros h Hh.
    destruct (parseHeader_Some_shape _ _ Hh) as (nm & ds & body & Hs & ->).
    split; [apply isHeader_shape; eauto|]. split; [apply Hs|]. split.
    + split; [exists (decimalValue ds); reflexivity|].
      apply (Dec_signed false).
    + intros f Hf. simpl in Hf. apply filter_In in Hf as [Hf Ht].
      apply in_map_iff in Hf as (x & <- & Hx). split; [|split].
      * intros E. rewrite E in Ht. discriminate.
      * apply trim_idempotent.
      * unfold trim. apply all_trimEnd, all_trimStart.
        pose proof (split_pieces "," body) as H.
        rewrite Forall_forall in H. now apply H.
Qed.

End HeaderTheorems.

(* ================================================================== *)
(** ** More about rows *)

Section RowExtras.
Import JSString JSNumber JSObject Toon ToonSpec.

Lemma fieldLoop_tokens todo row row' :
  forall j obj,
    (forall i, i < j + List.length todo ->
               nth_error row i = nth_error row' i) ->
    fieldLoop todo row j obj = fieldLoop todo row' j obj.
Proof.
  induction todo as [|f todo IH]; intros j obj H; simpl; [reflexivity|].
  rewrite (H j) by (simpl; lia).
  apply IH. intros i Hi. apply H. simpl. lia.
Qed.

(** X10. Tokens beyond the number of fields are ignored: two data lines
    whose first tokens, as many as there are fields, are the same give
    the same record. *)
Theorem surplus_tokens_ignored (fields : list string) (line line' : string) :
  firstn (List.length fields) (rowTokens line)
  = firstn (List.length fields) (rowTokens line') ->
  assembleRow fields line = assembleRow fields line'.
Proof.
  intros H. unfold assembleRow. apply fieldLoop_tokens.
  intros i Hi. simpl in Hi.
  pose proof (nth_error_firstn (List.length fields) (rowTokens line) i) as H1.
  pose proof (nth_error_firstn (List.length fields) (rowTokens line') i) as H2.
  apply Nat.ltb_lt in Hi. rewrite Hi in H1, H2.
  now rewrite <- H1, <- H2, H.
Qed.

Lemma surplus_tokens_ignored_witness :
  assembleRow ["x"; "y"] "1, 2, 3, 4" = assembleRow ["x"; "y"] "1,2".
Proof.
  exact (surplus_tokens_ignored ["x"; "y"] "1, 2, 3, 4" "1,2" eq_refl).
Defined.







End RowExtras.

(* ================================================================== *)
(** ** More about scalar coercion *)

Section ValueExtras.
Import JSString Regex JSNumber JSObject Toon ToonSpec.

Lemma trimEnd_last (s : string) (q : ascii) :
  isWhiteSpace q = false ->
  trimEnd (s ++ String q EmptyString) = s ++ String q EmptyString.
Proof.
  intros Hq. induction s as [|c s IH]; simpl.
  - now rewrite Hq.
  - rewrite IH. destruct s; simpl; now rewrite andb_false_r.
Qed.

Lemma trim_quoted (s : string) : trim (quoted s) = quoted s.
Proof.
  unfold trim, quoted.
  change (trimStart (String dquote (s ++ String dquote EmptyString)))
    with (String dquote s ++ String dquote EmptyString).
  now apply trimEnd_last.
Qed.

(** The longest repetition that leaves a last character of the class to
    the continuation. *)
Lemma star_last (p : ascii -> bool) (k : Cont) s q caps r :
  all p s = true -> p q = true ->
  k EmptyString caps = None -> k (String q EmptyString) caps = Some r ->
  star p k (s ++ String q EmptyString) caps = Some r.
Proof.
  intros Hs Hq Hend Hlast. induction s as [|c s IH]; simpl in *.
  - now rewrite Hq, Hend.
  - apply andb_true_iff in Hs as [Hc Hs]. now rewrite Hc, (IH Hs).
Qed.

Lemma append_last_inj (a b : string) (q : ascii) :
  a ++ String q EmptyString = b ++ String q EmptyString -> a = b.
Proof.
  revert b. induction a as [|x a IH]; intros [|y b]; simpl; intros H.
  - reflexivity.
  - injection H as _ H. destruct b; discriminate H.
  - injection H as _ H. destruct a; discriminate H.
  - injection H as -> H. now rewrite (IH b H).
Qed.

Lemma strip_quotes (s : string) :
  all dot s = true -> replaceByGroup1 quotedToken (quoted s) = s.
Proof.
  intros Hs. unfold replaceByGroup1, matchAnchored, quoted.
  cbn [quotedToken seqs run]. rewrite one_literal.
  erewrite star_last; [| exact Hs | reflexivity | reflexivity |].
  2:{ cbn beta. rewrite one_literal. reflexivity. }
  cbn [nth app]. apply take_prefix.
Qed.

Lemma keep_quotes (s : string) :
  all dot s = false ->
  replaceByGroup1 quotedToken (quoted s) = quoted s.
Proof.
  intros Hs. unfold replaceByGroup1, matchAnchored.
  destruct (run quotedToken atEnd (quoted s) []) as [r|] eqn:E;
    [|reflexivity].
  exfalso. unfold quoted in E. cbn [quotedToken seqs run] in E.
  rewrite one_literal in E.
  apply star_Some in E as (pre & post & Hsplit & Hpre & E). cbn beta in E.
  apply one_literal_Some in E as (rest & -> & E).
  apply atEnd_Some in E as [-> _].
  apply append_last_inj in Hsplit. subst pre. congruence.
Qed.

Lemma Number_quoted (s : string) : Number (quoted s) = NaN.
Proof. unfold Number. rewrite trim_quoted. reflexivity. Qed.

(** X12. A token between double quotes is coerced to the string between
    them, whatever stands there: [true], [null] or digits stay strings,
    quotes inside are kept, the empty pair gives the empty string.  Only
    when a line terminator (a carriage return, on a cleaned line) stands
    between the quotes does the token stay as it is, quotes and all. *)
Theorem quoted_token_is_unquoted (s : string) :
  (all dot s = true -> parseValue (quoted s) = VStr s)
  /\ (all dot s = false -> parseValue (quoted s) = VStr (quoted s)).
Proof.
  assert (H : parseValue (quoted s)
              = VStr (replaceByGroup1 quotedToken (quoted s))).
  { unfold parseValue. rewrite trim_quoted, Number_quoted. reflexivity. }
  split; intros Hs; rewrite H; f_equal;
    [now apply strip_quotes | now apply keep_quotes].
Qed.

Lemma quoted_token_is_unquoted_witness :
  parseValue (quoted "null") = VStr "null"
  /\ parseValue (quoted (String "013"%char "a"))
     = VStr (quoted (String "013"%char "a")).
Proof.
  split.
  - exact (proj1 (quoted_token_is_unquoted "null") eq_refl).
  - exact (proj2 (quoted_token_is_unquoted (String "013"%char "a")) eq_refl).
Defined.

End ValueExtras.

(* ================================================================== *)
(** ** Integer tokens *)

Section IntegerTokens.
Import JSString Regex JSNumber JSObject Toon ToonSpec.

Lemma digit_not_space c : isDigit c = true -> isWhiteSpace c = false.
Proof.
  intros H. destruct c as [[] [] [] [] [] [] [] []]; try discriminate H;
    reflexivity.
Qed.

Lemma trimEnd_digits s : all isDigit s = true -> trimEnd s = s.
Proof.
  induction s as [|c s IH]; simpl; [reflexivity|].
  intros H. apply andb_true_iff in H as [Hc Hs].
  now rewrite (digit_not_space c Hc), (IH Hs).
Qed.

Lemma dropWhile_all (p : ascii -> bool) (s : string) :
  all p s = true -> dropWhile p s = EmptyString.
Proof.
  induction s as [|c s IH]; simpl; [reflexivity|].
  intros H. apply andb_true_iff in H as [Hc Hs]. now rewrite Hc, IH.
Qed.

Lemma unsignedDecimal_digits ds :
  ds <> EmptyString -> all isDigit ds = true ->
  unsignedDecimal ds = Some (decimalValue ds, 0%Z).
Proof.
  intros Hne Hds. unfold unsignedDecimal.
  rewrite (takeWhile_all _ _ Hds), (dropWhile_all _ _ Hds).
  destruct ds as [|d ds]; [congruence|]. simpl.
  now rewrite append_empty_r.
Qed.

Lemma digits_not_word d ds (w : string) :
  isDigit d = true ->
  match w with
  | String c _ => isDigit c = false
  | EmptyString => True
  end ->
  String.eqb (String d ds) w = false.
Proof.
  intros Hd. destruct w as [|c w]; [reflexivity|]. intros Hc. simpl.
  destruct (Ascii.eqb d c) eqn:E; [|reflexivity].
  apply Ascii.eqb_eq in E. congruence.
Qed.

Lemma nonDecimal_digits d ds :
  isDigit d = true -> all isDigit ds = true ->
  nonDecimalLiteral (String d ds) = None.
Proof.
  intros Hd Hds.
  destruct d as [[] [] [] [] [] [] [] []]; try discriminate Hd;
    try reflexivity.
  destruct ds as [|x ds]; [reflexivity|]. simpl in Hds.
  apply andb_true_iff in Hds as [Hx _].
  destruct x as [[] [] [] [] [] [] [] []]; try discriminate Hx; reflexivity.
Qed.

Lemma strDecimal_digits d ds :
  isDigit d = true -> all isDigit ds = true ->
  strDecimalLiteral (String d ds) = Dec false (decimalValue (String d ds)) 0.
Proof.
  intros Hd Hds.
  assert (Hall : all isDigit (String d ds) = true)
    by (simpl; now rewrite Hd, Hds).
  pose proof (unsignedDecimal_digits (String d ds) ltac:(discriminate) Hall)
    as Hu.
  pose proof (digits_not_word d ds "Infinity" Hd eq_refl) as Hinf.
  unfold strDecimalLiteral.
  destruct d as [[] [] [] [] [] [] [] []]; try discriminate Hd;
    rewrite Hinf, Hu; reflexivity.
Qed.

Lemma Number_digits ds :
  ds <> EmptyString -> all isDigit ds = true ->
  Number ds = Dec false (decimalValue ds) 0
  /\ Number (String "-" ds) = Dec true (decimalValue ds) 0.
Proof.
  intros Hne Hds. destruct ds as [|d ds]; [congruence|].
  pose proof Hds as Hall. simpl in Hds.
  apply andb_true_iff in Hds as [Hd Hds]. split.
  - unfold Number, trim. simpl trimStart.
    rewrite (digit_not_space d Hd), (trimEnd_digits _ Hall). simpl isEmpty.
    cbv iota. now rewrite (nonDecimal_digits d ds Hd Hds), strDecimal_digits.
  - unfold Number, trim. simpl trimStart.
    change (trimEnd (String "-" (String d ds)))
      with (if isWhiteSpace "-" && isEmpty (trimEnd (String d ds))
            then EmptyString else String "-" (trimEnd (String d ds))).
    rewrite (trimEnd_digits _ Hall). simpl.
    unfold strDecimalLiteral.
    rewrite (digits_not_word d ds "Infinity" Hd eq_refl).
    now rewrite (unsignedDecimal_digits (String d ds) ltac:(discriminate) Hall).
Qed.

(** X13. A token of decimal digits is coerced to the number value of
    the integer it spells in base 10, that is the double nearest to it
    (leading zeros do not make it octal, and from 2^53 on the integer
    is rounded), and with a minus sign in front to that number
    negated. *)
Theorem integer_tokens_are_numbers (ds : string) :
  ds <> EmptyString -> all isDigit ds = true ->
  parseValue ds = VNum (Dec false (decimalValue ds) 0)
  /\ parseValue (String "-" ds) = VNum (Dec true (decimalValue ds) 0).
Proof.
  intros Hne Hds. destruct (Number_digits ds Hne Hds) as [Hpos Hneg].
  destruct ds as [|d ds]; [congruence|].
  pose proof Hds as Hall. simpl in Hds.
  apply andb_true_iff in Hds as [Hd Hds].
  assert (Ht : trim (String d ds) = String d ds).
  { unfold trim. simpl trimStart.
    now rewrite (digit_not_space d Hd), (trimEnd_digits _ Hall). }
  assert (Ht' : trim (String "-" (String d ds)) = String "-" (String d ds)).
  { unfold trim. simpl trimStart.
    change (trimEnd (String "-" (String d ds)))
      with (if isWhiteSpace "-" && isEmpty (trimEnd (String d ds))
            then EmptyString else String "-" (trimEnd (String d ds))).
    now rewrite (trimEnd_digits _ Hall). }
  split; unfold parseValue.
  - rewrite Ht, Hpos.
    rewrite !(digits_not_word d ds) by (exact Hd || reflexivity).
    now rewrite (proj1 (Dec_signed false _ _)).
  - rewrite Ht', Hneg.
    change (String.eqb (String "-" (String d ds)) "true") with false.
    change (String.eqb (String "-" (String d ds)) "false") with false.
    change (String.eqb (String "-" (String d ds)) "null") with false.
    now rewrite (proj1 (Dec_signed true _ _)).
Qed.

Lemma integer_tokens_are_numbers_witness :
  (parseValue "0042" = VNum (Dec false 42 0)
   /\ parseValue "-0042" = VNum (Dec true 42 0))
  /\ parseValue "9007199254740993" = VNum (Dec false 9007199254740992 0).
Proof.
  split.
  - exact (integer_tokens_are_numbers "0042" ltac:(discriminate) eq_refl).
  - exact (proj1 (integer_tokens_are_numbers "9007199254740993"
                    ltac:(discriminate) eq_refl)).
Defined.

End IntegerTokens.

(* ================================================================== *)
(** ** Cleaned text and the keys of a record *)

Section CanonicalForm.
Import JSString JSObject Toon ToonSpec.

Lemma cleaned_fixed (text l : string) :
  In l (cleanLines text) -> cleaned l = [l].
Proof.
  intros Hin. unfold cleaned.
  assert (Hkeep : keepLine l = true).
  { unfold cleanLines in Hin. now apply filter_In in Hin as [_ ?]. }
  assert (Hone : oneLine l /\ trim l = l).
  { unfold cleanLines in Hin. apply filter_In in Hin as [Hin _].
    apply in_map_iff in Hin as (x & <- & Hx). split.
    - unfold oneLine, trim. apply all_trimEnd, all_trimStart.
      pose proof (split_pieces LF text) as H.
      rewrite Forall_forall in H. now apply H.
    - apply trim_idempotent. }
  destruct Hone as [Hone Htrim].
  rewrite (split_one_piece LF l Hone). simpl. now rewrite Htrim, Hkeep.
Qed.

Lemma flat_map_fixed (f : string -> list string) (ls : list string) :
  (forall l, In l ls -> f l = [l]) -> flat_map f ls = ls.
Proof.
  induction ls as [|l ls IH]; intros H; simpl; [reflexivity|].
  rewrite (H l) by now left. simpl. f_equal. apply IH.
  intros l' Hl'. apply H. now right.
Qed.

(** X14. The cleaned lines are a document of their own: cleaning them
    again changes nothing, and handing them to [parseFromLines] gives
    the outcome of [parseFromString] on the text they came from. *)
Theorem cleaned_lines_parse_alike (console : bool) (text : string) :
  cleanLines (join newline (cleanLines text)) = cleanLines text
  /\ parseFromLines console (AnArray (cleanLines text))
     = parseFromString console text.
Proof.
  assert (H : cleanLines (join newline (cleanLines text)) = cleanLines text).
  { rewrite cleanLines_lines. apply flat_map_fixed.
    intros l Hl. eapply cleaned_fixed; eauto. }
  split; [exact H|]. simpl. unfold parseFromString. now rewrite H.
Qed.

Lemma assign_keys obj f v k :
  In k (creationKeys (own (assign obj f v))) ->
  In k (creationKeys (own obj)) \/ k = f.
Proof.
  unfold assign. destruct (hasOwn (own obj) f).
  - simpl. rewrite creationKeys_put. apply addKey_In.
  - destruct (String.eqb f "__proto__" && negb (nullPrototype obj)).
    + destruct v; simpl; auto.
    + simpl. rewrite creationKeys_put. apply addKey_In.
Qed.

Lemma assign_size obj f v :
  List.length (own (assign obj f v)) <= S (List.length (own obj)).
Proof.
  assert (Hput : forall o : props value,
             List.length (putOwn o f v) <= S (List.length o)).
  { induction o as [|[k0 v0] o IH]; simpl; [lia|].
    destruct (String.eqb k0 f); simpl; lia. }
  unfold assign. destruct (hasOwn (own obj) f); [apply Hput|].
  destruct (String.eqb f "__proto__" && negb (nullPrototype obj));
    [|apply Hput].
  destruct v; simpl; lia.
Qed.

Lemma fieldLoop_keys_bound todo row :
  forall j obj,
    (forall k, In k (creationKeys (own (fieldLoop todo row j obj))) ->
               In k (creationKeys (own obj)) \/ In k todo)
    /\ List.length (own (fieldLoop todo row j obj))
       <= List.length (own obj) + List.length todo.
Proof.
  induction todo as [|f todo IH]; intros j obj; simpl.
  - split; [auto | lia].
  - destruct (IH (S j)
                (assign obj f
                   (parseValue (match nth_error row j with
                                | Some r => r
                                | None => EmptyString
                                end)))) as [Hk Hn].
    split.
    + intros k Hin. destruct (Hk k Hin) as [H | H]; [|auto].
      apply assign_keys in H as [H | ->]; auto.
    + pose proof (assign_size obj f
                    (parseValue (match nth_error row j with
                                 | Some r => r
                                 | None => EmptyString
                                 end))). lia.
Qed.

(** X15. Whatever the header and the row are, a record has no key that
    is not a field name of the header, and no more keys than the header
    has fields: tokens beyond the fields make no keys. *)
Theorem record_keys_are_fields (fields : list string) (line : string) :
  (forall k, In k (ownKeys (own (assembleRow fields line))) -> In k fields)
  /\ List.length (ownKeys (own (assembleRow fields line)))
     <= List.length fields.
Proof.
  destruct (fieldLoop_keys_bound fields (rowTokens line) 0 emptyObject)
    as [Hk Hn].
  split.
  - intros k Hin. unfold ownKeys in Hin.
    apply (proj1 (enumerate_In _ _)) in Hin.
    destruct (Hk k Hin) as [[] | H]. exact H.
  - assert (Hperm : forall ks,
               List.length (enumerate ks) = List.length ks).
    { intros ks. unfold enumerate. rewrite length_app.
      assert (Hs : forall l, List.length (sortIndices l) = List.length l).
      { unfold sortIndices. induction l as [|x l IHl]; simpl; [reflexivity|].
        rewrite <- IHl. generalize (fold_right insertIndex [] l).
        induction l0 as [|y l0 IH0]; simpl; [reflexivity|].
        destruct (_ <=? _)%N; simpl; [reflexivity | now rewrite IH0]. }
      rewrite Hs. induction ks as [|x ks IHks]; simpl; [reflexivity|].
      destruct (isArrayIndex x); simpl; lia. }
    unfold ownKeys. rewrite Hperm. unfold creationKeys.
    rewrite length_map. simpl in Hn. exact Hn.
Qed.

End CanonicalForm.
